(** * valibot: key-path normalisation, instruction dispatch and selector synthesis

    A shallow embedding of the instruction interpreter of
    [valibot/test_execution.py] and of the helpers it uses from
    [valibot/util.py] ([find_common_prefix], [remove_common_prefix],
    [PageScraper]).

    Python [str] values are [string]s (characters as [ascii]), a [dict] is
    an association list in insertion order, Playwright calls are events
    whose outcome is decided by an oracle on the history of calls issued so
    far. *)

From Stdlib Require Import String Ascii List Bool Arith Lia.
From Stdlib Require Decimal DecimalString.
Import ListNotations.

Local Open Scope list_scope.
Local Open Scope string_scope.

(** ** Python string primitives *)

Module PyStr.

(** [s.startswith(p)] *)
Definition startswith (s p : string) : bool := String.prefix p s.

(** [s[:i]] *)
Definition slice_to (s : string) (i : nat) : string := String.substring 0 i s.

(** [s[i] == t[i]]; both reads are in range wherever the source compares. *)
Definition same_char_at (i : nat) (s t : string) : bool :=
  match String.get i s, String.get i t with
  | Some a, Some b => Ascii.eqb a b
  | None, None => true
  | _, _ => false
  end.

(** [s.split(sep)] for a one-character separator: every occurrence cuts,
    empty segments are kept, and the result is never empty. *)
Fixpoint split (sep : ascii) (s : string) : list string :=
  match s with
  | EmptyString => [EmptyString]
  | String c s' =>
      if Ascii.eqb c sep then EmptyString :: split sep s'
      else match split sep s' with
           | [] => [String c EmptyString]
           | seg :: rest => String c seg :: rest
           end
  end.

(** [new.join(list(s))] with [new] at both ends: what [s.replace('', new)]
    yields. *)
Fixpoint intersperse (new s : string) : string :=
  match s with
  | EmptyString => new
  | String c s' => new ++ String c (intersperse new s')
  end.

(** Left-to-right scan of [s.replace(old, new)] for a non-empty [old];
    [skip] counts the characters of the occurrence being consumed. *)
Fixpoint replace_scan (old new s : string) (skip : nat) : string :=
  match s with
  | EmptyString => EmptyString
  | String c s' =>
      match skip with
      | S k => replace_scan old new s' k
      | O =>
          if String.prefix old s
          then new ++ replace_scan old new s' (String.length old - 1)
          else String c (replace_scan old new s' 0)
      end
  end.

(** [s.replace(old, new)]: every non-overlapping occurrence, leftmost
    first. *)
Definition replace (s old new : string) : string :=
  match old with
  | EmptyString => intersperse new s
  | _ => replace_scan old new s 0
  end.

End PyStr.

Import PyStr.

(** ** [valibot/util.py]: the key-path normaliser *)

(** [min(len(s) for s in strings)] on a non-empty list headed by [s0]. *)
Definition min_len (s0 : string) (rest : list string) : nat :=
  fold_left (fun m s => Nat.min m (String.length s)) rest (String.length s0).

(** The loop [for i in range(shortest)] of [find_common_prefix], entered
    at index [i] with [n] iterations left. *)
Fixpoint scan_prefix (strings : list string) (s0 : string)
         (shortest i n : nat) : string :=
  match n with
  | O => slice_to s0 shortest
  | S n' =>
      if forallb (fun s => same_char_at i s s0) strings
      then scan_prefix strings s0 shortest (S i) n'
      else slice_to s0 i
  end.

Definition find_common_prefix (strings : list string) : string :=
  match strings with
  | [] => ""
  | s0 :: rest =>
      let shortest := min_len s0 rest in
      scan_prefix strings s0 shortest 0 shortest
  end.

(** A [dict] with string keys, in insertion order. *)
Definition pydict (V : Type) := list (string * V).

Definition keys {V} (d : pydict V) : list string := map fst d.

(** [d[k] = v]: an existing key keeps its position and takes the new
    value, a new key goes to the end. *)
Fixpoint dict_set {V} (d : pydict V) (k : string) (v : V) : pydict V :=
  match d with
  | [] => [(k, v)]
  | (k', v') :: d' =>
      if String.eqb k' k then (k', v) :: d' else (k', v') :: dict_set d' k v
  end.

(** [d[k]]; [None] stands for [KeyError]. *)
Fixpoint dict_get {V} (d : pydict V) (k : string) : option V :=
  match d with
  | [] => None
  | (k', v') :: d' => if String.eqb k' k then Some v' else dict_get d' k
  end.

(** The instruction mapping: dotted key to value. *)
Definition dict := pydict string.

(** [{key.replace(common_prefix, ''): value for key, value in json_dict.items()}] *)
Definition remove_common_prefix (json_dict : dict) (common_prefix : string) : dict :=
  fold_left (fun acc kv => dict_set acc (replace (fst kv) common_prefix "") (snd kv))
            json_dict [].

(** ** [valibot/test_execution.py]: the instruction interpreter *)

(** Calls the interpreter issues, in the order it issues them.  Log lines
    and the step counter that only feeds them are left out. *)
Inductive call : Type :=
| Launch
| NewContext
| NewPage
| TracingStart
| Goto (url : string)
| Fill (selector value : string)
| Click (selector : string)
| Sleep (seconds : nat)
| TracingStop (path : string)
| BrowserClose
| PlaywrightExit.

Inductive exn : Type :=
| IndexError
| PlaywrightError (c : call).

Inductive result (A : Type) : Type :=
| Ok (a : A)
| Raise (e : exn).
Arguments Ok {A} a.
Arguments Raise {A} e.

(** The history holds every call issued, the failing one included. *)
Definition history := list call.

(** Whether a Playwright call fails, given the calls issued before it. *)
Definition oracle := history -> call -> bool.

Definition M (A : Type) : Type := history -> history * result A.

Definition ret {A} (a : A) : M A := fun h => (h, Ok a).

Definition raise {A} (e : exn) : M A := fun h => (h, Raise e).

Definition bind {A B} (m : M A) (k : A -> M B) : M B :=
  fun h =>
    match m h with
    | (h', Ok a) => k a h'
    | (h', Raise e) => (h', Raise e)
    end.

Declare Scope exec_scope.
Delimit Scope exec_scope with exec.
Notation "x <- m ;; k" := (bind m (fun x => k))
  (at level 61, m at next level, right associativity) : exec_scope.
Notation "m ;; k" := (bind m (fun _ => k))
  (at level 61, right associativity) : exec_scope.

(** A Playwright call: recorded, then it raises when the oracle says so. *)
Definition playwright (fails : oracle) (c : call) : M unit :=
  fun h => ((h ++ [c])%list, if fails h c then Raise (PlaywrightError c) else Ok tt).

(** [time.sleep(n)] *)
Definition sleep (n : nat) : M unit := fun h => ((h ++ [Sleep n])%list, Ok tt).

(** [if b: body] *)
Definition when (b : bool) (body : M unit) : M unit := if b then body else ret tt.

(** [l[i]] for [i >= 0] *)
Definition index (l : list string) (i : nat) : M string :=
  match nth_error l i with
  | Some s => ret s
  | None => raise IndexError
  end.

(** [l[-i]] for [i >= 1] *)
Definition index_from_end (l : list string) (i : nat) : M string :=
  if Nat.leb i (List.length l) && Nat.leb 1 i then index l (List.length l - i)
  else raise IndexError.

(** [with sync_playwright() as p: body]: the manager exits on both paths
    and lets an exception through. *)
Definition with_playwright {A} (body : M A) : M A :=
  fun h => let (h', r) := body h in ((h' ++ [PlaywrightExit])%list, r).

(** [os.path.join(a, b)] for a directory [a] without trailing separator. *)
Definition path_join (a b : string) : string := a ++ "/" ++ b.

Definition time_to_wait : nat := 3.

Section Interpreter.

Variable fails : oracle.
Variable OUTPUT_DIR : string.

Local Open Scope exec_scope.

(** The body of [for key, value in testItem.items()]. *)
Definition dispatch_instruction (key value : string) : M unit :=
  when (startswith key "url")
       (playwright fails (Goto value)) ;;
  when (startswith key "input")
       (let input_list := split "." key in
        seg1 <- index input_list 1 ;;
        when (startswith seg1 "placeholder")
             (seg2 <- index input_list 2 ;;
              playwright fails (Fill ("input[placeholder='" ++ seg2 ++ "']") value)) ;;
        sleep time_to_wait) ;;
  when (startswith key "textarea")
       (let input_list := split "." key in
        seg1 <- index input_list 1 ;;
        when (startswith seg1 "placeholder")
             (seg2 <- index input_list 2 ;;
              playwright fails (Fill ("textarea[placeholder='" ++ seg2 ++ "']") value)) ;;
        sleep time_to_wait) ;;
  when (startswith key "button")
       (let input_list := split "." key in
        playwright fails (Click ("button[name='" ++ value ++ "']")) ;;
        sleep time_to_wait).

Fixpoint run_instructions (testItem : dict) : M unit :=
  match testItem with
  | [] => ret tt
  | (key, value) :: rest => dispatch_instruction key value ;; run_instructions rest
  end.

(** [testExecution], from the mapping [parse_dict(testData)] on.  The
    handler of the outer [try] logs and re-raises, so an exception leaves
    as it arose. *)
Definition testExecution (jsonInstruction : dict) : M bool :=
  let common_prefix := find_common_prefix (keys jsonInstruction) in
  last_key <- index_from_end (split "." common_prefix) 2 ;;
  let testItem := remove_common_prefix jsonInstruction common_prefix in
  with_playwright
    (playwright fails Launch ;;
     playwright fails NewContext ;;
     playwright fails NewPage ;;
     playwright fails TracingStart ;;
     run_instructions testItem ;;
     playwright fails (TracingStop (path_join OUTPUT_DIR "trace.zip")) ;;
     playwright fails BrowserClose) ;;
  ret true.

End Interpreter.

(** The calls a run issues and how it ends, from an empty history. *)
Definition run {A} (m : M A) : history * result A := m [].

(** ** [valibot/util.py]: [PageScraper] *)

(** Values held by an element record. *)
Inductive pyval : Type :=
| PStr (s : string)
| PBool (b : bool).

(** How an f-string renders a value. *)
Definition fmt (v : pyval) : string :=
  match v with
  | PStr s => s
  | PBool true => "True"
  | PBool false => "False"
  end.

(** An element record: the dict literal of a [_get_*] method. *)
Definition record := pydict pyval.

(** [a or default] on the result of [get_attribute] / [inner_text]. *)
Definition py_or (a : option string) (default : string) : string :=
  match a with
  | Some EmptyString | None => default
  | Some s => s
  end.

(** [a == 'true'] *)
Definition is_true (a : option string) : bool :=
  match a with
  | Some s => String.eqb s "true"
  | None => false
  end.

(** A Playwright read either yields a value or raises: [None] is the
    exception, which the [except] of the enclosing element catches. *)
Definition obind {A B} (m : option A) (k : A -> option B) : option B :=
  match m with
  | Some a => k a
  | None => None
  end.

Declare Scope scrape_scope.
Delimit Scope scrape_scope with scrape.
Notation "x <- m ;; k" := (obind m (fun x => k))
  (at level 61, m at next level, right associativity) : scrape_scope.

(** The double-quote character of the button locator. *)
Definition dq : string := String (Ascii.ascii_of_nat 34) EmptyString.

Definition buttons_selector : string :=
  "button, input[type=" ++ dq ++ "button" ++ dq ++ "], input[type="
  ++ dq ++ "submit" ++ dq ++ "]".

(** [f"//{tag}[@{p}='{v}']"] *)
Definition field_xpath (tag p : string) (v : pyval) : string :=
  "//" ++ tag ++ "[@" ++ p ++ "='" ++ fmt v ++ "']".

Section PageScraper.

Variable element : Type.
(** [self.page.locator(sel).all()] on the page as it is during the call. *)
Variable locator_all : string -> option (list element).
(** [el.get_attribute(name)]; the inner [None] is Python's. *)
Variable get_attribute : element -> string -> option (option string).
(** [el.inner_text()] *)
Variable inner_text : element -> option string.

Local Open Scope scrape_scope.

(** [for el in els: try: ... append ... except: log]: an element whose
    record raised is skipped. *)
Definition scrape_each (f : element -> option record) (els : list element) : list record :=
  flat_map (fun el => match f el with Some d => [d] | None => [] end) els.

(** The [for p in [...]] loop of [_get_inputs] and [_get_textareas]. *)
Fixpoint field_xpath_loop (tag : string) (data : record) (ps : list string) : option record :=
  match ps with
  | [] => Some data
  | p :: ps' =>
      v <- dict_get data p ;;
      let xpath := field_xpath tag p v in
      elements <- locator_all xpath ;;
      if Nat.eqb (List.length elements) 1
      then Some (dict_set data "xpath" (PStr xpath))
      else field_xpath_loop tag data ps'
  end.

(** The body of the [try] of [_get_inputs] / [_get_textareas]; the two
    methods differ in the tag only. *)
Definition field_record (tag : string) (el : element) : option record :=
  a_type <- get_attribute el "type" ;;
  a_name <- get_attribute el "name" ;;
  a_id <- get_attribute el "id" ;;
  a_testid <- get_attribute el "data-testid" ;;
  a_value <- get_attribute el "value" ;;
  a_placeholder <- get_attribute el "placeholder" ;;
  a_required <- get_attribute el "required" ;;
  a_disabled <- get_attribute el "disabled" ;;
  let data : record :=
    [ ("type", PStr (py_or a_type "text"));
      ("name", PStr (py_or a_name ""));
      ("id", PStr (py_or a_id ""));
      ("data-testid", PStr (py_or a_testid ""));
      ("value", PStr (py_or a_value ""));
      ("placeholder", PStr (py_or a_placeholder ""));
      ("required", PBool (is_true a_required));
      ("disabled", PBool (is_true a_disabled)) ] in
  field_xpath_loop tag data ["data-testid"; "id"; "name"; "type"].

Definition _get_textareas : option (list record) :=
  els <- locator_all "textarea" ;;
  Some (scrape_each (field_record "textarea") els).

Definition _get_inputs : option (list record) :=
  els <- locator_all "input" ;;
  Some (scrape_each (field_record "input") els).

(** The [match p] of [_get_buttons]; the inner [None] is [case _: continue]. *)
Definition button_xpath (data : record) (p : string) : option (option string) :=
  if String.eqb p "id" then
    v <- dict_get data "id" ;; Some (Some ("//button[@id='" ++ fmt v ++ "']"))
  else if String.eqb p "name" then
    v <- dict_get data "name" ;; Some (Some ("//button[@name='" ++ fmt v ++ "']"))
  else if String.eqb p "text" then
    v <- dict_get data "text" ;; Some (Some ("//button[contains(text(),'" ++ fmt v ++ "')]"))
  else if String.eqb p "type" then
    v <- dict_get data "type" ;; Some (Some ("//button[@type='" ++ fmt v ++ "']"))
  else Some None.

(** The [for p in ['id', 'name', 'text', 'type']] loop of [_get_buttons]. *)
Fixpoint button_xpath_loop (data : record) (ps : list string) : option record :=
  match ps with
  | [] => Some data
  | p :: ps' =>
      ox <- button_xpath data p ;;
      match ox with
      | None => button_xpath_loop data ps'
      | Some xpath =>
          elements <- locator_all xpath ;;
          if Nat.eqb (List.length elements) 1
          then Some (dict_set data "xpath" (PStr xpath))
          else button_xpath_loop data ps'
      end
  end.

Definition button_record (button : element) : option record :=
  text <- inner_text button ;;
  a_type <- get_attribute button "type" ;;
  a_name <- get_attribute button "name" ;;
  a_id <- get_attribute button "id" ;;
  a_disabled <- get_attribute button "disabled" ;;
  let button_data : record :=
    [ ("text", PStr (py_or (Some text) ""));
      ("type", PStr (py_or a_type "button"));
      ("name", PStr (py_or a_name ""));
      ("id", PStr (py_or a_id ""));
      ("disabled", PBool (is_true a_disabled)) ] in
  button_xpath_loop button_data ["id"; "name"; "text"; "type"].

Definition _get_buttons : option (list record) :=
  els <- locator_all buttons_selector ;;
  Some (scrape_each button_record els).

End PageScraper.

(** ** Vocabulary of the statements *)

(** The action category of a key: its first dot-separated segment. *)
Definition category (key : string) : string := hd "" (split "." key).

(** Calls on the page: navigate, fill, click. *)
Definition is_page_action (c : call) : bool :=
  match c with
  | Goto _ | Fill _ _ | Click _ => true
  | _ => false
  end.

(** The calls a computation adds to the history [h], and how it ends. *)
Definition issued {A} (m : M A) (h : history) : list call :=
  skipn (List.length h) (fst (m h)).

Definition outcome {A} (m : M A) (h : history) : result A := snd (m h).

(** A field of a record as the f-string of a selector renders it. *)
Definition shown (d : record) (k : string) : string :=
  match dict_get d k with
  | Some v => fmt v
  | None => ""
  end.


(** The page answers the query with exactly one element. *)
Definition matches_one {element} (locator_all : string -> option (list element))
           (xpath : string) : bool :=
  match locator_all xpath with
  | Some els => Nat.eqb (List.length els) 1
  | None => false
  end.


(** The separator occurs nowhere in [p]. *)
Fixpoint no_dot (p : string) : bool :=
  match p with
  | EmptyString => true
  | String c p' => negb (Ascii.eqb c ".") && no_dot p'
  end.

(** The exceptions the instruction loop can raise: a segment read out of
    range, or a failing page action. *)
Definition loop_exn (e : exn) : Prop :=
  e = IndexError \/ exists c, e = PlaywrightError c /\ is_page_action c = true.

(** The calls the instruction loop can issue. *)
Definition loop_call (c : call) : bool :=
  match c with
  | Goto _ | Fill _ _ | Click _ | Sleep _ => true
  | _ => false
  end.

(** A computation that only extends the history, by calls of the loop,
    and only raises exceptions of the loop. *)
Definition tame {A} (m : M A) : Prop :=
  forall h, exists new,
    fst (m h) = (h ++ new)%list /\
    forallb loop_call new = true /\
    forall e, snd (m h) = Raise e -> loop_exn e.

(** ** Pages for the examples *)

(** An element of a static page: tag, attributes, rendered text. *)
Record node : Type := Node
  { node_tag : string;
    node_attrs : pydict string;
    node_text : string }.

Definition node_attribute (n : node) (name : string) : option (option string) :=
  Some (dict_get (node_attrs n) name).

Definition node_inner_text (n : node) : option string := Some (node_text n).

(** A page given by the answers to the queries put to it; a query that
    is not listed matches nothing. *)
Definition page_of (answers : pydict (list node)) (selector : string) : option (list node) :=
  Some (match dict_get answers selector with
        | Some els => els
        | None => []
        end).




Definition user_input : node := Node "input" [("id", "user"); ("name", "q")] "".

Definition bare_input : node := Node "input" [("name", "q")] "".

(** Two inputs with the same name, one of them with an id. *)
Definition two_inputs_page : string -> option (list node) :=
  page_of [ ("input", [user_input; bare_input]);
            ("//input[@id='user']", [user_input]);
            ("//input[@name='q']", [user_input; bare_input]) ].

(** A navigation. *)
Definition is_goto (c : call) : bool :=
  match c with
  | Goto _ => true
  | _ => false
  end.

(** The calls that open a session, in order. *)
Definition session_setup : history := [Launch; NewContext; NewPage; TracingStart].

(** ** [valibot/util.py]: the other methods of [PageScraper] *)

(** The text of a div record: [inner_text()] as read, or the list that
    [split()] made of it. *)
Inductive div_text : Type :=
| TStr (s : string)
| TWords (words : list string).

(** The record of [_get_divs]; [d_xpath] is the optional ['xpath'] key. *)
Record div_data : Type := DivData
  { d_testid : string;
    d_id : string;
    d_class : string;
    d_role : string;
    d_text : div_text;
    d_xpath : option string }.

Definition div_set_xpath (d : div_data) (xpath : string) : div_data :=
  DivData (d_testid d) (d_id d) (d_class d) (d_role d) (d_text d) (Some xpath).

Definition div_set_text (d : div_data) (t : div_text) : div_data :=
  DivData (d_testid d) (d_id d) (d_class d) (d_role d) t (d_xpath d).

Record option_data : Type := OptionData
  { o_value : string; o_text : string; o_selected : bool }.

Record select_data : Type := SelectData
  { s_name : string; s_id : string; s_multiple : bool; s_options : list option_data }.

Record link_data : Type := LinkData
  { l_text : string; l_href : string; l_id : string; l_target : string }.

Record form_input : Type := FormInput
  { fi_type : string; fi_name : string; fi_value : string }.

Record form_button : Type := FormButton
  { fb_text : string; fb_type : string }.

Record form_data : Type := FormData
  { f_id : string; f_name : string; f_method : string; f_action : string;
    f_inputs : list form_input; f_buttons : list form_button }.

(** The dict of [scrape_elements]. *)
Record scraped : Type := Scraped
  { sc_textareas : list record;
    sc_inputs : list record;
    sc_buttons : list record;
    sc_labels : list record;
    sc_divs : list div_data;
    sc_selects : list select_data;
    sc_links : list link_data;
    sc_forms : list form_data }.

Definition divs_selector : string := "div[id], div[class], div[role], div[data-testid]".

Definition form_buttons_selector : string :=
  "button, input[type=" ++ dq ++ "submit" ++ dq ++ "]".

(** A string is true when it is not empty. *)
Definition non_empty (s : string) : bool :=
  match s with
  | EmptyString => false
  | _ => true
  end.

Section PageScraperRest.

Variable element : Type.
Variable locator_all : string -> option (list element).
(** [el.locator(sel).all()] on an element. *)
Variable sub_locator : element -> string -> option (list element).
Variable get_attribute : element -> string -> option (option string).
Variable inner_text : element -> option string.
(** [s.split()]: the words of [s] between runs of white space. *)
Variable split_words : string -> list string.

Local Open Scope scrape_scope.

(** An inner loop without a [try] of its own: the first read that raises
    ends it. *)
Fixpoint for_each {A B} (f : A -> option B) (l : list A) : option (list B) :=
  match l with
  | [] => Some []
  | a :: l' => b <- f a ;; bs <- for_each f l' ;; Some (b :: bs)
  end.

(** [for el in els: try: ... append ... except: log], for any kind of
    record. *)
Definition collect {B} (f : element -> option B) (els : list element) : list B :=
  flat_map (fun el => match f el with Some d => [d] | None => [] end) els.

(** The [match p] of [_get_labels]. *)
Definition label_xpath (data : record) (p : string) : option (option string) :=
  if String.eqb p "text" then
    v <- dict_get data "text" ;; Some (Some ("//label[contains(text(),'" ++ fmt v ++ "')]"))
  else if String.eqb p "id" then
    v <- dict_get data "id" ;; Some (Some ("//label[@id='" ++ fmt v ++ "']"))
  else Some None.

(** The [for p in ['id', 'text']] loop of [_get_labels]. *)
Fixpoint label_xpath_loop (data : record) (ps : list string) : option record :=
  match ps with
  | [] => Some data
  | p :: ps' =>
      ox <- label_xpath data p ;;
      match ox with
      | None => label_xpath_loop data ps'
      | Some xpath =>
          elements <- locator_all xpath ;;
          if Nat.eqb (List.length elements) 1
          then Some (dict_set data "xpath" (PStr xpath))
          else label_xpath_loop data ps'
      end
  end.

Definition label_record (label : element) : option record :=
  text <- inner_text label ;;
  a_for <- get_attribute label "for" ;;
  a_id <- get_attribute label "id" ;;
  let label_data : record :=
    [ ("text", PStr (py_or (Some text) ""));
      ("for", PStr (py_or a_for ""));
      ("id", PStr (py_or a_id "")) ] in
  label_xpath_loop label_data ["id"; "text"].

Definition _get_labels : option (list record) :=
  els <- locator_all "label" ;;
  Some (scrape_each element label_record els).

(** [div_data[p]] for the two keys of the loop. *)
Definition div_field (d : div_data) (p : string) : string :=
  if String.eqb p "data-testid" then d_testid d
  else if String.eqb p "id" then d_id d
  else "".

(** The [match p] of [_get_divs]; [None] is [case _: continue].  The
    closing quote of the attribute value comes after [//input]. *)
Definition div_xpath (d : div_data) (p : string) : option string :=
  if String.eqb p "data-testid" then Some ("//div[@data-testid='" ++ d_testid d ++ "//input']")
  else if String.eqb p "id" then Some ("//div[@id='" ++ d_id d ++ "//input']")
  else None.

(** The [for p in ['data-testid', 'id']] loop of [_get_divs] on one div.
    The record is one object: it is appended inside the loop, once per
    iteration that gets that far, and every appended reference shows the
    record as the loop leaves it.  So the loop yields the final record
    and the number of times it was appended.  An exception (a query that
    raises, [split] on the list a former iteration stored) ends the loop
    and leaves both as they are. *)
Fixpoint div_loop (d : div_data) (appended : nat) (ps : list string) : div_data * nat :=
  match ps with
  | [] => (d, appended)
  | p :: ps' =>
      if non_empty (div_field d p) then
        match div_xpath d p with
        | None => div_loop d appended ps'
        | Some xpath =>
            match locator_all xpath with
            | None => (d, appended)
            | Some elements =>
                let d1 := if Nat.eqb (List.length elements) 1
                          then div_set_xpath d xpath else d in
                match d_text d1 with
                | TStr EmptyString => div_loop d1 (S appended) ps'
                | TStr s => div_loop (div_set_text d1 (TWords (split_words s))) (S appended) ps'
                | TWords [] => div_loop d1 (S appended) ps'
                | TWords _ => (d1, appended)
                end
            end
        end
      else div_loop d appended ps'
  end.

(** The records one div leaves in [divs]. *)
Definition div_records (div : element) : list div_data :=
  match
    (a_testid <- get_attribute div "data-testid" ;;
     a_id <- get_attribute div "id" ;;
     a_class <- get_attribute div "class" ;;
     a_role <- get_attribute div "role" ;;
     text <- inner_text div ;;
     Some (DivData (py_or a_testid "") (py_or a_id "") (py_or a_class "")
                   (py_or a_role "") (TStr (py_or (Some text) "")) None))
  with
  | None => []
  | Some div_data =>
      let (final, appended) := div_loop div_data 0 ["data-testid"; "id"] in
      repeat final appended
  end.

Definition _get_divs : option (list div_data) :=
  els <- locator_all divs_selector ;;
  Some (flat_map div_records els).

Definition option_record (opt : element) : option option_data :=
  a_value <- get_attribute opt "value" ;;
  text <- inner_text opt ;;
  a_selected <- get_attribute opt "selected" ;;
  Some (OptionData (py_or a_value "") (py_or (Some text) "") (is_true a_selected)).

Definition select_record (select : element) : option select_data :=
  opts <- sub_locator select "option" ;;
  options <- for_each option_record opts ;;
  a_name <- get_attribute select "name" ;;
  a_id <- get_attribute select "id" ;;
  a_multiple <- get_attribute select "multiple" ;;
  Some (SelectData (py_or a_name "") (py_or a_id "") (is_true a_multiple) options).

Definition _get_selects : option (list select_data) :=
  els <- locator_all "select" ;;
  Some (collect select_record els).

Definition link_record (link : element) : option link_data :=
  text <- inner_text link ;;
  a_href <- get_attribute link "href" ;;
  a_id <- get_attribute link "id" ;;
  a_target <- get_attribute link "target" ;;
  Some (LinkData (py_or (Some text) "") (py_or a_href "") (py_or a_id "")
                 (py_or a_target "_self")).

Definition _get_links : option (list link_data) :=
  els <- locator_all "a[href]" ;;
  Some (collect link_record els).

Definition form_input_record (input_el : element) : option form_input :=
  a_type <- get_attribute input_el "type" ;;
  a_name <- get_attribute input_el "name" ;;
  a_value <- get_attribute input_el "value" ;;
  Some (FormInput (py_or a_type "text") (py_or a_name "") (py_or a_value "")).

Definition form_button_record (button : element) : option form_button :=
  text <- inner_text button ;;
  a_type <- get_attribute button "type" ;;
  Some (FormButton (py_or (Some text) "") (py_or a_type "submit")).

Definition form_record (form : element) : option form_data :=
  a_id <- get_attribute form "id" ;;
  a_name <- get_attribute form "name" ;;
  a_method <- get_attribute form "method" ;;
  a_action <- get_attribute form "action" ;;
  input_els <- sub_locator form "input" ;;
  inputs <- for_each form_input_record input_els ;;
  button_els <- sub_locator form form_buttons_selector ;;
  buttons <- for_each form_button_record button_els ;;
  Some (FormData (py_or a_id "") (py_or a_name "") (py_or a_method "get")
                 (py_or a_action "") inputs buttons).

Definition _get_forms : option (list form_data) :=
  els <- locator_all "form" ;;
  Some (collect form_record els).

Definition scrape_elements : option scraped :=
  textareas <- _get_textareas element locator_all get_attribute ;;
  inputs <- _get_inputs element locator_all get_attribute ;;
  buttons <- _get_buttons element locator_all get_attribute inner_text ;;
  labels <- _get_labels ;;
  divs <- _get_divs ;;
  selects <- _get_selects ;;
  links <- _get_links ;;
  forms <- _get_forms ;;
  Some (Scraped textareas inputs buttons labels divs selects links forms).

End PageScraperRest.

(** The page-level queries of [scrape_elements], in the order it puts
    them. *)
Definition page_queries : list string :=
  ["textarea"; "input"; buttons_selector; "label"; divs_selector; "select"; "a[href]"; "form"].

(** The candidate selectors of a label record, in the order of the loop. *)
Definition label_candidates (d : record) : list string :=
  [ "//label[@id='" ++ shown d "id" ++ "']";
    "//label[contains(text(),'" ++ shown d "text" ++ "')]" ].

(** A div with a class only, a div with both identifiers and no text, a
    label with an id. *)
Definition plain_div : node := Node "div" [("class", "box")] "hello".


Definition name_label : node := Node "label" [("id", "lbl"); ("for", "user")] "Name".

Definition label_page : string -> option (list node) :=
  page_of [ ("label", [name_label]); ("//label[@id='lbl']", [name_label]) ].

(** ** [valibot/engine.py]: the action handler *)

(** [c.lower()] on the letters A to Z. *)
Definition lower_char (c : ascii) : ascii :=
  let n := nat_of_ascii c in
  if Nat.leb 65 n && Nat.leb n 90 then ascii_of_nat (n + 32) else c.

(** [s.lower()] *)
Fixpoint lower (s : string) : string :=
  match s with
  | EmptyString => EmptyString
  | String c s' => String (lower_char c) (lower s')
  end.

(** [x in [a, b, ...]] on strings. *)
Definition member (x : string) (l : list string) : bool := existsb (String.eqb x) l.

(** What [process_jira_steps] returns: a false value ([None], an empty
    container), a non-empty dict, given by the mapping [parse_dict] makes
    of it, or another true value. *)
Inductive steps : Type :=
| NoSteps
| StepsDict (jsonInstruction : dict)
| StepsOther.

Inductive engine_exn : Type :=
| TestError (e : exn)
| ValueError (message : string)
| TypeError (message : string)
| AttributeError (message : string)
| HandlerError (message : string).

Inductive outcome_of (A : Type) : Type :=
| Returned (a : A)
| Raised (e : engine_exn).
Arguments Returned {A} a.
Arguments Raised {A} e.

(** A computation of the engine: it extends the history of browser calls
    and returns or raises. *)
Definition E (A : Type) : Type := history -> history * outcome_of A.

Definition eret {A} (a : A) : E A := fun h => (h, Returned a).

Definition eraise {A} (e : engine_exn) : E A := fun h => (h, Raised e).

Definition ebind {A B} (m : E A) (k : A -> E B) : E B :=
  fun h =>
    match m h with
    | (h', Returned a) => k a h'
    | (h', Raised e) => (h', Raised e)
    end.

(** [try: m except Exception as e: handler(e)] *)
Definition ecatch {A} (m : E A) (handler : engine_exn -> E A) : E A :=
  fun h =>
    match m h with
    | (h', Returned a) => (h', Returned a)
    | (h', Raised e) => handler e h'
    end.

(** A call of [testExecution] from the engine. *)
Definition call_test {A} (m : M A) : E A :=
  fun h =>
    match m h with
    | (h', Ok a) => (h', Returned a)
    | (h', Raise e) => (h', Raised (TestError e))
    end.

Declare Scope engine_scope.
Delimit Scope engine_scope with engine.
Notation "x <- m ;; k" := (ebind m (fun x => k))
  (at level 61, m at next level, right associativity) : engine_scope.
Notation "m ;; k" := (ebind m (fun _ => k))
  (at level 61, right associativity) : engine_scope.

(** What a handler returns: the steps of [_handle_run], the dict of
    another handler, [None]. *)
Inductive handled (R : Type) : Type :=
| RunSteps (msg : steps)
| HandlerDict (r : R)
| HandlerNone.
Arguments RunSteps {R} msg.
Arguments HandlerDict {R} r.
Arguments HandlerNone {R}.

(** What [process_action] returns: the value of the handler, or
    [{'status': 'error', 'message': str(e)}]. *)
Inductive action_result (R : Type) : Type :=
| Handled (v : handled R)
| ErrorStatus (e : engine_exn).
Arguments Handled {R} v.
Arguments ErrorStatus {R} e.

(** The message of [runEngine]. *)
Inductive engine_message : Type :=
| Completed
| EngineError (e : engine_exn).

(** [d.get(k, default)]; a stored [None] is Python's. *)
Definition get_or (d : pydict (option string)) (k default : string) : option string :=
  match dict_get d k with
  | Some v => v
  | None => Some default
  end.

Section Engine.

Variable fails : oracle.
Variable OUTPUT_DIR : string.
(** The dict of the other handlers. *)
Variable R : Type.
(** [process_jira_steps(config, prompt_dict)], which catches what it
    raises. *)
Variable process_jira_steps : steps.
(** The handlers that do not run instructions, with what they do to the
    browser and whether they raise. *)
Variable _handle_update : option string -> E R.
Variable _handle_list : E R.
Variable _handle_debug : E R.
Variable prompt_dict : pydict (option string).

Local Open Scope engine_scope.

(** The handlers re-raise what they catch. *)
Definition _handle_run : E (handled R) :=
  let msg := process_jira_steps in
  match msg with
  | NoSteps => eraise (ValueError "No test steps found")
  | StepsDict jsonInstruction =>
      testResult <- call_test (testExecution fails OUTPUT_DIR jsonInstruction) ;;
      eret (RunSteps msg)
  | StepsOther => eret (RunSteps msg)
  end.

(** [_handle_raise(self, environment)]: its body is [pass]. *)
Definition _handle_raise (environment : string) : E (handled R) := eret HandlerNone.

(** [self._handle_raise()]: the call leaves out [environment]. *)
Definition _handle_raise_without_argument : E (handled R) :=
  eraise (TypeError "ActionHandler._handle_raise() missing 1 required positional argument: 'environment'").

Definition process_action : E (action_result R) :=
  ecatch
    (match get_or prompt_dict "action" "" with
     | None => eraise (AttributeError "'NoneType' object has no attribute 'lower'")
     | Some a =>
         let action := lower a in
         let environment := get_or prompt_dict "environment" "dev" in
         if negb (non_empty action) then eraise (ValueError "Action is required")
         else if member action ["run"; "execution"; "execute"] then
           v <- _handle_run ;; eret (Handled v)
         else if String.eqb action "update" then
           r <- _handle_update environment ;; eret (Handled (HandlerDict r))
         else if String.eqb action "list" then
           r <- _handle_list ;; eret (Handled (HandlerDict r))
         else if member action ["debug"; "show"; "trace"] then
           r <- _handle_debug ;; eret (Handled (HandlerDict r))
         else if member action ["raise"] then
           v <- _handle_raise_without_argument ;; eret (Handled v)
         else eraise (ValueError ("Invalid action: " ++ action))
     end)
    (fun e => eret (ErrorStatus e)).

(** [runEngine]: [("Prompt Processing -- completed", True)] or
    [(f"Error: {e}", False)]. *)
Definition runEngine : E (engine_message * bool) :=
  ecatch
    (result <- process_action ;; eret (Completed, true))
    (fun e => eret (EngineError e, false)).

End Engine.

(** ** [valibot/jira_process.py]: [get_sheet_name] *)

(** [sub in s] *)
Fixpoint contains (s sub : string) : bool :=
  match s with
  | EmptyString => String.prefix sub EmptyString
  | String _ s' => String.prefix sub s || contains s' sub
  end.

(** The character [c] occurs in [s]. *)
Fixpoint has_char (c : ascii) (s : string) : bool :=
  match s with
  | EmptyString => false
  | String a s' => Ascii.eqb a c || has_char c s'
  end.

(** Left-to-right scan of [s.split(sep)] for a non-empty [sep] of any
    length; [skip] counts the characters of the separator being
    consumed. *)
Fixpoint split_scan (sep s : string) (skip : nat) : list string :=
  match s with
  | EmptyString => [EmptyString]
  | String c s' =>
      match skip with
      | S k => split_scan sep s' k
      | O =>
          if String.prefix sep s
          then EmptyString :: split_scan sep s' (String.length sep - 1)
          else match split_scan sep s' 0 with
               | seg :: rest => String c seg :: rest
               | [] => [String c EmptyString]
               end
      end
  end.

(** [s.split(sep)] for a non-empty string [sep]. *)
Definition split_on (sep s : string) : list string := split_scan sep s 0.

(** The dict [get_sheet_name] returns. *)
Record sheet_info : Type := SheetInfo
  { sheet_id : string;
    sheet_name : option string }.

(** [get_sheet_name]; an exception inside the [try] is logged and the
    function returns [None]. *)
Definition get_sheet_name (url : string) : option sheet_info :=
  if negb (contains url "docs.google.com/spreadsheets") then None
  else if contains url "/d/" then
    match nth_error (split_on "/d/" url) 1 with
    | None => None
    | Some tail =>
        let parts := split "/" tail in
        match nth_error parts 0 with
        | None => None
        | Some id =>
            let name :=
              match nth_error parts 1 with
              | Some part1 =>
                  if Nat.ltb 1 (List.length parts) && contains part1 "edit" then
                    let sheet_params := split "=" part1 in
                    if Nat.ltb 1 (List.length sheet_params)
                    then nth_error sheet_params 1
                    else None
                  else None
              | None => None
              end in
            Some (SheetInfo id name)
        end
    end
  else None.

(** ** [valibot/util.py]: [TextCipher] *)

(** [s[n:]] *)
Fixpoint slice_from (s : string) (n : nat) : string :=
  match n, s with
  | O, _ => s
  | S n', String _ s' => slice_from s' n'
  | S _, EmptyString => EmptyString
  end.

Section TextCipher.

(** A Fernet key. *)
Variable key : Type.
(** [_generate_key]: the PBKDF2 derivation from the salt and the encoded
    password, in URL-safe base64. *)
Variable derive_key : string -> string -> key.
(** What [Fernet.encrypt] draws by itself: initialisation vector and
    time stamp. *)
Variable nonce : Type.
Variable fernet_encrypt : key -> nonce -> string -> string.
(** [Fernet.decrypt]; [None] is [InvalidToken]. *)
Variable fernet_decrypt : key -> string -> option string.
(** [base64.urlsafe_b64encode] (read as text) and
    [base64.urlsafe_b64decode]; [None] is its exception. *)
Variable b64encode : string -> string.
Variable b64decode : string -> option string.
(** [str.encode()] and [bytes.decode()]; [None] is [UnicodeDecodeError]. *)
Variable encode : string -> string.
Variable decode : string -> option string.

(** [encrypt] on a cipher whose salt is [salt]. *)
Definition encrypt (salt : string) (n : nonce) (text password : string) : option string :=
  if negb (non_empty text) || negb (non_empty password) then None
  else
    let k := derive_key salt (encode password) in
    let cipher_text := fernet_encrypt k n (encode text) in
    let combined := b64encode (salt ++ cipher_text) in
    Some combined.

(** [decrypt] on a cipher whose salt is [self_salt]: the result and the
    salt of the cipher afterwards. *)
Definition decrypt (self_salt cipher_text password : string) : option string * string :=
  if negb (non_empty cipher_text) || negb (non_empty password) then (None, self_salt)
  else
    match b64decode cipher_text with
    | None => (None, self_salt)
    | Some combined =>
        let salt := slice_to combined 16 in
        let actual_cipher_text := slice_from combined 16 in
        let k := derive_key salt (encode password) in
        match fernet_decrypt k actual_cipher_text with
        | None => (None, salt)
        | Some plain_text => (decode plain_text, salt)
        end
    end.

End TextCipher.

(** ** [valibot/util.py]: [GeminiClient] *)

(** The dict of [_create_response_template]. *)
Record response_template : Type := ResponseTemplate
  { rt_timestamp : string;
    rt_model : string;
    rt_status : string;
    rt_prompt : string;
    rt_type : string;
    rt_content : option string;
    rt_error : option string }.

(** A chat message: [message['role']] and [message['content']]. *)
Record chat_message : Type := ChatMessage
  { role : string;
    content : string }.

Section GeminiClient.

(** The formatted [datetime.now()]. *)
Variable now : string.
(** [self.model.start_chat()]: whether it raises, with [str(e)]. *)
Variable start_chat : option string.
(** A response of the model. *)
Variable reply : Type.
(** [chat.send_message(content)] after the messages sent before: the
    response, or [str(e)] of the exception. *)
Variable send_message : list string -> string -> reply + string.
(** [response.text]: the text, or [str(e)] of the exception. *)
Variable text_of : reply -> string + string.
(** [str(e)] of reading [response] before any assignment. *)
Variable unbound_response : string.

Definition _create_response_template (prompt response status : string)
           (error : option string) : response_template :=
  ResponseTemplate now "gemini-pro" status prompt "generate_content"
    (if String.eqb status "success" then Some response else None)
    (if String.eqb status "error" then error else None).

(** The [for message in messages] loop: the messages sent, the last
    prompt and the last response if any; or the exception text. *)
Fixpoint chat_loop (messages : list chat_message) (sent : list string)
         (last_prompt : string) (response : option reply)
  : (list string * string * option reply) + string :=
  match messages with
  | [] => inl (sent, last_prompt, response)
  | message :: rest =>
      if String.eqb (role message) "user" then
        match send_message sent (content message) with
        | inl r => chat_loop rest (sent ++ [content message])%list
                             (content message) (Some r)
        | inr e => inr e
        end
      else chat_loop rest sent last_prompt response
  end.

(** [messages[-1]['content'] if messages else ""] *)
Definition last_content (messages : list chat_message) : string :=
  match rev messages with
  | [] => ""
  | m :: _ => content m
  end.

Definition generate_chat_response (messages : list chat_message) : response_template :=
  let failed e := _create_response_template (last_content messages) "" "error" (Some e) in
  match start_chat with
  | Some e => failed e
  | None =>
      match chat_loop messages [] "" None with
      | inr e => failed e
      | inl (_, last_prompt, Some response) =>
          match text_of response with
          | inl text => _create_response_template last_prompt text "success" None
          | inr e => failed e
          end
      | inl (_, _, None) => failed unbound_response
      end
  end.

End GeminiClient.

(** ** [valibot/util.py]: [parse_url_to_variable] *)

(** [str(n)] for a natural number. *)
Definition str_of_nat (n : nat) : string :=
  DecimalString.NilZero.string_of_uint (Nat.to_uint n).

Definition is_digit (c : ascii) : bool :=
  let n := nat_of_ascii c in Nat.leb 48 n && Nat.leb n 57.

(** The class [[a-zA-Z0-9]]. *)
Definition is_alnum (c : ascii) : bool :=
  let n := nat_of_ascii c in
  is_digit c || (Nat.leb 65 n && Nat.leb n 90) || (Nat.leb 97 n && Nat.leb n 122).

(** The class [[0-9a-f]]. *)
Definition is_hex (c : ascii) : bool :=
  let n := nat_of_ascii c in
  is_digit c || (Nat.leb 97 n && Nat.leb n 102).

(** [[0-9a-f]{n}] at the head of [s]: what follows it. *)
Fixpoint hex_run (n : nat) (s : string) : option string :=
  match n with
  | O => Some s
  | S n' =>
      match s with
      | String c s' => if is_hex c then hex_run n' s' else None
      | EmptyString => None
      end
  end.

(** [-] at the head of [s]: what follows it. *)
Definition dash (s : string) : option string :=
  match s with
  | String c s' => if Ascii.eqb c "-" then Some s' else None
  | EmptyString => None
  end.

Definition newline : string := String (ascii_of_nat 10) EmptyString.

(** [is_uuid]: the pattern of five hexadecimal groups on the lowered
    text; [$] also matches before a final newline. *)
Definition is_uuid (text : string) : bool :=
  match
    obind (hex_run 8 (lower text)) (fun s1 =>
    obind (dash s1) (fun s2 =>
    obind (hex_run 4 s2) (fun s3 =>
    obind (dash s3) (fun s4 =>
    obind (hex_run 4 s4) (fun s5 =>
    obind (dash s5) (fun s6 =>
    obind (hex_run 4 s6) (fun s7 =>
    obind (dash s7) (fun s8 =>
    hex_run 12 s8))))))))
  with
  | Some rest => String.eqb rest "" || String.eqb rest newline
  | None => false
  end.

(** [re.sub(r'[^a-zA-Z0-9]', '_', part)] *)
Fixpoint replace_special (part : string) : string :=
  match part with
  | EmptyString => EmptyString
  | String c s' => String (if is_alnum c then c else "_"%char) (replace_special s')
  end.

(** [re.sub(r'_+', '_', part)] *)
Fixpoint collapse_underscores (part : string) : string :=
  match part with
  | EmptyString => EmptyString
  | String c s' =>
      if Ascii.eqb c "_" then
        match s' with
        | String c' _ =>
            if Ascii.eqb c' "_" then collapse_underscores s'
            else String c (collapse_underscores s')
        | EmptyString => String c EmptyString
        end
      else String c (collapse_underscores s')
  end.

(** The [for i, part in enumerate(path_parts)] loop: the first UUID and
    the parts after it. *)
Fixpoint after_uuid (path_parts : list string) : option (string * list string) :=
  match path_parts with
  | [] => None
  | part :: rest => if is_uuid part then Some (part, rest) else after_uuid rest
  end.

(** The dict [parse_url_to_variable] returns. *)
Record url_variable : Type := UrlVariable
  { uv_uuid : option string;
    uv_variable : string }.

Section ParseUrl.

(** [urlparse(url).fragment]; [None] when [urlparse] raises. *)
Variable fragment_of : string -> option string.

(** [parse_url_to_variable], with the number [random.randint(1000, 9999)]
    draws. *)
Definition parse_url_to_variable (url : string) (random : nat) : url_variable :=
  match fragment_of url with
  | None => UrlVariable None "url_error"
  | Some fragment =>
      let path_parts := filter non_empty (split "/" fragment) in
      let (found, path_parts) :=
        match after_uuid path_parts with
        | Some (part, rest) => (Some part, rest)
        | None => (None, path_parts)
        end in
      let path_parts := map (fun part => slice_to part 4) path_parts in
      let clean_parts :=
        map (fun part => collapse_underscores (replace_special part)) path_parts in
      UrlVariable found (String.concat "_" clean_parts ++ "_" ++ str_of_nat random)
  end.

End ParseUrl.

(** Every character of [s] satisfies [f]. *)
Fixpoint string_forall (f : ascii -> bool) (s : string) : bool :=
  match s with
  | EmptyString => true
  | String c s' => f c && string_forall f s'
  end.

(** A letter, a digit or an underscore. *)
Definition word_char (c : ascii) : bool := is_alnum c || Ascii.eqb c "_".

(** ** [valibot/util.py]: [TraceViewer]; [valibot/engine.py]: [_handle_debug] *)

Section TraceViewer.

(** [os.name == 'nt'] *)
Variable nt : bool.
(** [shutil.which]: whether the executable is found. *)
Variable which : string -> bool.
(** [str(Path(p).absolute())] and [Path(p).absolute().exists()] *)
Variable absolute : string -> string.
Variable path_exists : string -> bool.
(** [subprocess.Popen(command, ...)]: whether it starts; [false] is an
    exception. *)
Variable popen : list string -> bool -> bool.

Definition playwright_exe : string := if nt then "playwright.exe" else "playwright".

(** [TraceViewer()]: [false] is the [RuntimeError] of
    [_check_installation]. *)
Definition TraceViewer_init : bool := which playwright_exe.

(** [show_trace]: what it returns, and the command it started if any.
    [port] is [None] or a number, [browser] a name. *)
Definition show_trace (trace_path : string) (port : option nat) (browser : string)
  : bool * option (list string) :=
  let trace_path := absolute trace_path in
  if negb (path_exists trace_path) then (false, None)
  else
    let command := [playwright_exe; "show-trace"] in
    let command :=
      match port with
      | Some (S p) => (command ++ ["--port"; str_of_nat (S p)])%list
      | _ => command
      end in
    let command :=
      if negb (String.eqb browser "default") then (command ++ ["--browser"; browser])%list
      else command in
    let command := (command ++ [trace_path])%list in
    if popen command nt then (true, Some command) else (false, None).

(** The dict [_handle_debug] returns. *)
Record debug_result : Type := DebugResult
  { dr_status : string;
    dr_message : string;
    dr_trace_path : string }.

(** [_handle_debug]: its result or exception, and the command started if
    any.  The handler re-raises what it catches. *)
Definition _handle_debug (prompt_dict : pydict (option string))
  : outcome_of debug_result * option (list string) :=
  match dict_get prompt_dict "log_path" with
  | Some (Some (String c p)) =>
      let trace_path := String c p in
      if TraceViewer_init then
        let (_, started) := show_trace trace_path (Some 9222) "default" in
        (Returned (DebugResult "success" "Opened trace viewer" trace_path), started)
      else (Raised (HandlerError "Playwright CLI not found. Install with: python -m playwright install"), None)
  | _ => (Raised (ValueError "Trace file not found"), None)
  end.

End TraceViewer.

(** ** [main.py]: the requests of [main] *)

(** What a request to the model comes back with: the status [error] with
    its text, or a content with what [extract_json] makes of it ([None]
    for no JSON and for a false value). *)
Inductive answer (J : Type) : Type :=
| AnswerError (error : string)
| AnswerContent (json_data : option J).
Arguments AnswerError {J} error.
Arguments AnswerContent {J} json_data.

(** How [main] ends from its first request on. *)
Inductive main_result (J : Type) : Type :=
| GeminiFailed (error : string)
| NoJson
| Engine (json_data : J).
Arguments GeminiFailed {J} error.
Arguments NoJson {J}.
Arguments Engine {J} json_data.

Section MainRequests.

Variable J : Type.
(** The answer to the request number [i], counted from 0. *)
Variable request : nat -> answer J.

(** [extract_json(prompt_response['response']['content'])]: an answer
    with the status [error] has the content [None], which holds no
    JSON. *)
Definition extracted (a : answer J) : option J :=
  match a with
  | AnswerError _ => None
  | AnswerContent json_data => json_data
  end.

(** The loop [while not json_data], entered with [count] retries made;
    [left] bounds the iterations that remain, [4 - count]. It yields the
    result and the number of requests made so far. *)
Fixpoint retry (left count : nat) (json_data : option J) : main_result J * nat :=
  match json_data with
  | Some j => (Engine j, S count)
  | None =>
      match left with
      | O => (NoJson, S count)
      | S left' =>
          let json_data := extracted (request (S count)) in
          let count := S count in
          if Nat.ltb 3 count then (NoJson, S count)
          else retry left' count json_data
      end
  end.

(** [main] from [prompt_response = gemini_client_process(prompt, api_key)]
    on: [Engine j] stands for [(runEngine(config, j), True)]. *)
Definition main_requests : main_result J * nat :=
  match request 0 with
  | AnswerError e => (GeminiFailed e, 1)
  | AnswerContent json_data => retry 4 0 json_data
  end.

End MainRequests.

(** ** Vocabulary of the session statements *)

(** The session is open when the loop starts: the common prefix has its
    dot and none of the four opening calls fails. *)
Definition session_ready (fails : oracle) (common_prefix : string) : bool :=
  negb (no_dot common_prefix)
  && negb (fails [] Launch)
  && negb (fails [Launch] NewContext)
  && negb (fails [Launch; NewContext] NewPage)
  && negb (fails [Launch; NewContext; NewPage] TracingStart).

(** A computation in which a page action that fails is the last call
    issued and its exception is the result. *)
Definition stops_at_failure (fails : oracle) {A} (m : M A) : Prop :=
  forall h, exists new,
    fst (m h) = (h ++ new)%list /\
    forall pre c post,
      new = (pre ++ c :: post)%list ->
      is_page_action c = true ->
      fails (h ++ pre)%list c = true ->
      post = [] /\ snd (m h) = Raise (PlaywrightError c).

(** Two submit inputs with the same name and distinct ids, on a page
    without any [button] element: every [//button[...]] query matches
    nothing, and the [//input[...]] queries match the inputs. *)
Definition save_input : node :=
  Node "input" [("type", "submit"); ("id", "save"); ("name", "submit")] "".

Definition send_input : node :=
  Node "input" [("type", "submit"); ("id", "send"); ("name", "submit")] "".

Definition submit_inputs_page : string -> option (list node) :=
  page_of [ (buttons_selector, [save_input; send_input]);
            ("input", [save_input; send_input]);
            ("//input[@id='save']", [save_input]);
            ("//input[@id='send']", [send_input]);
            ("//input[@name='submit']", [save_input; send_input]);
            ("//input[@type='submit']", [save_input; send_input]) ].

(** * Properties *)

(** ** Strings *)

Lemma prefix_cons (a b : ascii) (p s : string) :
  String.prefix (String a p) (String b s) = true <-> a = b /\ String.prefix p s = true.
Proof.
  simpl. destruct (ascii_dec a b) as [->|Hne].
  - tauto.
  - split; [discriminate | intros [E _]; contradiction].
Qed.

Lemma prefix_length (p s : string) :
  String.prefix p s = true -> String.length p <= String.length s.
Proof.
  revert s. induction p as [|a p IH]; intros [|b s] H.
  - apply Nat.le_refl.
  - apply Nat.le_0_l.
  - discriminate H.
  - apply prefix_cons in H. destruct H as [_ H]. apply IH in H. simpl. lia.
Qed.

Lemma prefix_get (p s : string) (i : nat) :
  String.prefix p s = true -> i < String.length p -> String.get i s = String.get i p.
Proof.
  revert s i. induction p as [|a p IH]; intros [|b s] i H Hi; simpl in Hi; try lia.
  - discriminate H.
  - apply prefix_cons in H. destruct H as [-> H].
    destruct i as [|i]; simpl; [reflexivity | apply IH; [assumption | lia]].
Qed.

Lemma prefix_append (p s : string) : String.prefix p (p ++ s) = true.
Proof.
  induction p as [|a p IH]; simpl.
  - destruct s; reflexivity.
  - destruct (ascii_dec a a); [assumption | contradiction].
Qed.

Lemma slice_to_length (s : string) (i : nat) :
  String.length (slice_to s i) = Nat.min i (String.length s).
Proof.
  unfold slice_to. revert i. induction s as [|c s IH]; intros [|i]; simpl; try reflexivity.
  rewrite IH. reflexivity.
Qed.

Lemma slice_to_prefix (s : string) (i : nat) :
  String.prefix (slice_to s i) s = true.
Proof.
  unfold slice_to. revert i. induction s as [|c s IH]; intros [|i]; simpl; try reflexivity.
  destruct (ascii_dec c c); [apply IH | contradiction].
Qed.

Lemma slice_to_agree (s t : string) (i : nat) :
  i <= String.length s -> i <= String.length t ->
  (forall k, k < i -> String.get k s = String.get k t) ->
  slice_to s i = slice_to t i.
Proof.
  unfold slice_to. revert t i.
  induction s as [|c s IH]; intros [|d t] [|i] Hs Ht H; simpl in *; try reflexivity; try lia.
  assert (E : Some c = Some d) by (apply (H 0); lia).
  injection E as ->. f_equal.
  apply IH; try lia. intros k Hk. apply (H (S k)). lia.
Qed.

Lemma same_char_at_true (i : nat) (s t : string) :
  same_char_at i s t = true <-> String.get i s = String.get i t.
Proof.
  unfold same_char_at.
  destruct (String.get i s) as [a|], (String.get i t) as [b|]; split; intro H;
    try reflexivity; try discriminate.
  - apply Ascii.eqb_eq in H. congruence.
  - injection H as ->. apply Ascii.eqb_refl.
Qed.

(** ** [find_common_prefix] *)

Lemma fold_min_le (rest : list string) (m : nat) :
  fold_left (fun m s => Nat.min m (String.length s)) rest m <= m /\
  forall s, In s rest ->
    fold_left (fun m s => Nat.min m (String.length s)) rest m <= String.length s.
Proof.
  revert m. induction rest as [|r rest IH]; intro m; simpl.
  - split; [lia | intros s []].
  - destruct (IH (Nat.min m (String.length r))) as [H1 H2]. split; [lia|].
    intros s [<- | Hin]; [lia | apply H2; assumption].
Qed.

Lemma fold_min_attained (rest : list string) (m : nat) :
  fold_left (fun m s => Nat.min m (String.length s)) rest m = m \/
  exists s, In s rest /\
    fold_left (fun m s => Nat.min m (String.length s)) rest m = String.length s.
Proof.
  revert m. induction rest as [|r rest IH]; intro m; simpl.
  - left. reflexivity.
  - destruct (IH (Nat.min m (String.length r))) as [E | (s & Hin & E)].
    + rewrite E. destruct (Nat.min_spec m (String.length r)) as [[_ ->] | [_ ->]].
      * left. reflexivity.
      * right. exists r. split; [left|]; reflexivity.
    + right. exists s. split; [right|]; assumption.
Qed.

Lemma min_len_le (s0 : string) (rest : list string) (s : string) :
  In s (s0 :: rest) -> min_len s0 rest <= String.length s.
Proof.
  unfold min_len. destruct (fold_min_le rest (String.length s0)) as [H1 H2].
  intros [<- | Hin]; [assumption | apply H2; assumption].
Qed.

Lemma min_len_attained (s0 : string) (rest : list string) :
  exists s, In s (s0 :: rest) /\ min_len s0 rest = String.length s.
Proof.
  unfold min_len. destruct (fold_min_attained rest (String.length s0)) as [E | (s & Hin & E)].
  - exists s0. split; [left; reflexivity | assumption].
  - exists s. split; [right|]; assumption.
Qed.

(** Where the scan stops: all keys agree with the first one below [j],
    and [j] is the shortest length or a position of disagreement. *)
Lemma scan_prefix_stops (strings : list string) (s0 : string) (shortest : nat) :
  forall n i,
    i + n = shortest ->
    (forall s k, In s strings -> k < i -> String.get k s = String.get k s0) ->
    exists j,
      j <= shortest /\
      scan_prefix strings s0 shortest i n = slice_to s0 j /\
      (forall s k, In s strings -> k < j -> String.get k s = String.get k s0) /\
      (j = shortest \/ exists s, In s strings /\ String.get j s <> String.get j s0).
Proof.
  induction n as [|n IH]; intros i Hi Hagree; simpl.
  - exists shortest. replace shortest with i by lia. repeat split; auto.
  - destruct (forallb (fun s => same_char_at i s s0) strings) eqn:Hall.
    + apply IH; [lia|]. intros s k Hin Hk.
      destruct (Nat.eq_dec k i) as [->|Hne].
      * rewrite forallb_forall in Hall. apply same_char_at_true, Hall, Hin.
      * apply Hagree; [assumption | lia].
    + exists i. repeat split; auto; [lia|]. right.
      assert (Hex : existsb (fun s => negb (same_char_at i s s0)) strings = true).
      { clear -Hall. induction strings as [|s l IHl]; simpl in *; [discriminate|].
        destruct (same_char_at i s s0); simpl in *; [apply IHl; assumption | reflexivity]. }
      apply existsb_exists in Hex. destruct Hex as (s & Hin & Hneg).
      exists s. split; [assumption|]. intro E.
      apply same_char_at_true in E. rewrite E in Hneg. discriminate.
Qed.

(** C4. On a non-empty sequence of keys [find_common_prefix] returns a
    prefix of every key, and no string that is a prefix of every key is
    longer than it; on the empty sequence it returns the empty string. *)
Theorem find_common_prefix_longest (strings : list string) :
  (strings <> [] ->
     (forall s, In s strings -> startswith s (find_common_prefix strings) = true) /\
     (forall q, (forall s, In s strings -> startswith s q = true) ->
        String.length q <= String.length (find_common_prefix strings))) /\
  find_common_prefix [] = "".
Proof.
  split; [|reflexivity]. intros Hne.
  destruct strings as [|s0 rest]; [contradiction|]. clear Hne.
  unfold find_common_prefix, startswith.
  set (strings := s0 :: rest). set (shortest := min_len s0 rest).
  assert (Hle : forall s, In s strings -> shortest <= String.length s)
    by (intros s Hin; apply min_len_le; assumption).
  destruct (scan_prefix_stops strings s0 shortest shortest 0) as (j & Hj & -> & Hagree & Hstop).
  - reflexivity.
  - intros s k _ Hk. lia.
  - assert (H0 : In s0 strings) by (left; reflexivity).
    split.
    + intros s Hin.
      rewrite (slice_to_agree s0 s j).
      * apply slice_to_prefix.
      * specialize (Hle _ H0). lia.
      * specialize (Hle _ Hin). lia.
      * intros k Hk. symmetry. apply Hagree; assumption.
    + intros q Hq. rewrite slice_to_length.
      specialize (Hle _ H0) as Hle0.
      destruct Hstop as [-> | (s & Hin & Hdiff)].
      * destruct (min_len_attained s0 rest) as (m & Hin & E).
        specialize (Hq _ Hin). apply prefix_length in Hq.
        fold shortest in E. lia.
      * destruct (Nat.le_gt_cases (String.length q) j) as [Hqj | Hqj]; [lia|].
        exfalso. apply Hdiff.
        rewrite (prefix_get q s j), (prefix_get q s0 j); auto.
Qed.

(** Instance of C4 on the keys of a two-instruction run. *)
Lemma find_common_prefix_longest_witness :
  ["run1.input.placeholder1.Name"; "run1.button.Submit"] <> [] /\
  (forall s, In s ["run1.input.placeholder1.Name"; "run1.button.Submit"] ->
     startswith s (find_common_prefix ["run1.input.placeholder1.Name"; "run1.button.Submit"]) = true).
Proof.
  split; [discriminate|].
  apply (find_common_prefix_longest ["run1.input.placeholder1.Name"; "run1.button.Submit"]).
  discriminate.
Defined.

(** ** [remove_common_prefix] *)

Lemma append_cancel (p a b : string) : p ++ a = p ++ b -> a = b.
Proof.
  induction p as [|c p IH]; simpl; intro H; [assumption|].
  injection H as H. apply IH, H.
Qed.

Lemma replace_scan_skip (old new p r : string) :
  replace_scan old new (p ++ r) (String.length p) = replace_scan old new r 0.
Proof.
  induction p as [|c p IH]; simpl; [reflexivity | apply IH].
Qed.

(** The scan drops a leading occurrence and goes on behind it. *)
Lemma replace_leading (p r : string) :
  p <> "" -> replace (p ++ r) p "" = replace r p "".
Proof.
  destruct p as [|c p]; [contradiction|]. intros _.
  unfold replace.
  change (String c p ++ r) with (String c (p ++ r)).
  cbn [replace_scan].
  change (String c (p ++ r)) with (String c p ++ r).
  rewrite prefix_append.
  cbn [String.length Nat.sub]. rewrite Nat.sub_0_r.
  apply replace_scan_skip.
Qed.

(** Where the prefix does not occur again behind the head of the key,
    re-attaching it gives the key back. *)
Lemma replace_reattach (p r : string) :
  p <> "" -> (p ++ replace (p ++ r) p "" = p ++ r <-> replace r p "" = r).
Proof.
  intros Hp. rewrite (replace_leading p r Hp). split.
  - apply append_cancel.
  - intros ->. reflexivity.
Qed.

Lemma dict_set_fresh {V} (d : pydict V) (k : string) (v : V) :
  ~ In k (keys d) -> dict_set d k v = (d ++ [(k, v)])%list.
Proof.
  induction d as [|[k' v'] d IH]; simpl; intro H; [reflexivity|].
  destruct (String.eqb_spec k' k) as [E|_].
  - exfalso. apply H. left. assumption.
  - f_equal. apply IH. intro Hin. apply H. right. assumption.
Qed.

(** Without collisions among the stripped keys the comprehension keeps
    one entry per instruction, in the order of the input. *)
Lemma remove_common_prefix_order (json_dict : dict) (common_prefix : string) :
  NoDup (map (fun k => replace k common_prefix "") (keys json_dict)) ->
  remove_common_prefix json_dict common_prefix
  = map (fun kv => (replace (fst kv) common_prefix "", snd kv)) json_dict.
Proof.
  unfold remove_common_prefix.
  set (norm := fun k => replace k common_prefix "").
  set (step := fun acc kv => dict_set acc (replace (fst kv) common_prefix "") (snd kv)).
  enough (G : forall (acc : dict),
             NoDup (keys acc ++ map norm (keys json_dict))%list ->
             fold_left step json_dict acc
             = (acc ++ map (fun kv => (norm (fst kv), snd kv)) json_dict)%list)
    by (intro H; apply (G []); assumption).
  induction json_dict as [|[k v] d IH]; intros acc H; simpl.
  - symmetry. apply app_nil_r.
  - simpl in H. unfold step at 2. simpl fst. simpl snd. fold (norm k).
    rewrite dict_set_fresh.
    + rewrite IH.
      * rewrite <- app_assoc. reflexivity.
      * unfold keys in *. rewrite map_app, <- app_assoc. exact H.
    + apply NoDup_remove_2 in H. intro Hin. apply H. apply in_or_app. left. exact Hin.
Qed.

(** C1. On the mapping with keys [a.url1] and [a.a.url1] the common
    prefix is [a.]; the key stored for [a.a.url1] is [url1], and the
    prefix re-attached to it gives [a.url1], not the original key. *)
Theorem remove_common_prefix_reattach_breaks :
  let json_dict := [("a.url1", "u1"); ("a.a.url1", "u3")] in
  let common_prefix := find_common_prefix (keys json_dict) in
  common_prefix = "a." /\
  replace "a.a.url1" common_prefix "" = "url1" /\
  common_prefix ++ replace "a.a.url1" common_prefix "" <> "a.a.url1" /\
  remove_common_prefix json_dict common_prefix = [("url1", "u3")].
Proof.
  repeat split. discriminate.
Qed.

(** ** The dispatcher *)

Lemma startswith_first_char (key p q : string) (a b : ascii) :
  startswith key (String a p) = true -> a <> b ->
  startswith key (String b q) = false.
Proof.
  unfold startswith. destruct key as [|c key]; intros H Hab; [discriminate H|].
  apply prefix_cons in H. destruct H as [<- _].
  simpl. destruct (ascii_dec b a) as [E|_]; [|reflexivity].
  exfalso. apply Hab. symmetry. exact E.
Qed.

Ltac other_category H :=
  apply (startswith_first_char _ _ _ _ _ H); discriminate.

Lemma skipn_history (h new : history) : skipn (List.length h) (h ++ new)%list = new.
Proof.
  induction h as [|c h IH]; simpl; [reflexivity | exact IH].
Qed.

Section Dispatch.

Variable fails : oracle.

Lemma dispatch_url (key value : string) (h : history) :
  startswith key "url" = true ->
  dispatch_instruction fails key value h
  = ((h ++ [Goto value])%list,
     if fails h (Goto value) then Raise (PlaywrightError (Goto value)) else Ok tt).
Proof.
  intro H. unfold dispatch_instruction.
  assert (Hi : startswith key "input" = false) by other_category H.
  assert (Ht : startswith key "textarea" = false) by other_category H.
  assert (Hb : startswith key "button" = false) by other_category H.
  rewrite H, Hi, Ht, Hb.
  unfold when, bind, ret, playwright. destruct (fails h (Goto value)); reflexivity.
Qed.

Lemma dispatch_button (key value : string) (h : history) :
  startswith key "button" = true ->
  dispatch_instruction fails key value h
  = let c := Click ("button[name='" ++ value ++ "']") in
    if fails h c then ((h ++ [c])%list, Raise (PlaywrightError c))
    else ((h ++ [c; Sleep time_to_wait])%list, Ok tt).
Proof.
  intro H. unfold dispatch_instruction.
  assert (Hu : startswith key "url" = false) by other_category H.
  assert (Hi : startswith key "input" = false) by other_category H.
  assert (Ht : startswith key "textarea" = false) by other_category H.
  rewrite H, Hu, Hi, Ht.
  unfold when, bind, ret, playwright, sleep. cbv zeta.
  destruct (fails h (Click ("button[name='" ++ value ++ "']"))); [reflexivity|].
  rewrite <- app_assoc. reflexivity.
Qed.

(** With no failing call, [N] instructions of the [url] category give
    [N] navigations, in the order of the normalised mapping. *)
Lemma run_instructions_navigations (testItem : dict) (h : history) :
  (forall h c, fails h c = false) ->
  (forall kv, In kv testItem -> startswith (fst kv) "url" = true) ->
  run_instructions fails testItem h
  = ((h ++ map (fun kv => Goto (snd kv)) testItem)%list, Ok tt).
Proof.
  intros Hok. revert h. induction testItem as [|[k v] rest IH]; intros h Hurl; simpl.
  - rewrite app_nil_r. reflexivity.
  - unfold bind. rewrite dispatch_url by (apply (Hurl (k, v)); left; reflexivity).
    rewrite Hok, IH by (intros kv Hin; apply Hurl; right; exact Hin).
    rewrite <- app_assoc. reflexivity.
Qed.

End Dispatch.

(** C2. On the empty mapping, and on every mapping whose keys have the
    empty string as common prefix, [testExecution] issues no call at all
    and raises [IndexError]: the read of the last-but-one segment of the
    prefix is out of range. *)
Theorem testExecution_empty_prefix_raises (fails : oracle) (OUTPUT_DIR : string) :
  run (testExecution fails OUTPUT_DIR []) = ([], Raise IndexError) /\
  forall jsonInstruction,
    find_common_prefix (keys jsonInstruction) = "" ->
    run (testExecution fails OUTPUT_DIR jsonInstruction) = ([], Raise IndexError).
Proof.
  split; [reflexivity|].
  intros d H. unfold run, testExecution. rewrite H. reflexivity.
Qed.

(** Instance of C2: two keys with no common prefix. *)
Lemma testExecution_empty_prefix_raises_witness :
  find_common_prefix (keys [("url", "http://x"); ("button", "go")]) = "" /\
  run (testExecution (fun _ _ => false) "out" [("url", "http://x"); ("button", "go")])
  = ([], Raise IndexError).
Proof.
  split; [reflexivity|].
  apply (testExecution_empty_prefix_raises (fun _ _ => false) "out"). reflexivity.
Defined.

(** C8. Three navigate instructions whose stripped keys collide: the
    mapping keeps two entries, and the run navigates to [u3] and then to
    [u2], where the input has [u1], [u2], [u3]. *)
Theorem testExecution_collapsed_keys_order :
  let jsonInstruction := [("a.url1", "u1"); ("a.url2", "u2"); ("a.a.url1", "u3")] in
  remove_common_prefix jsonInstruction (find_common_prefix (keys jsonInstruction))
  = [("url1", "u3"); ("url2", "u2")] /\
  run (testExecution (fun _ _ => false) "out" jsonInstruction)
  = ([Launch; NewContext; NewPage; TracingStart; Goto "u3"; Goto "u2";
      TracingStop "out/trace.zip"; BrowserClose; PlaywrightExit], Ok true).
Proof.
  split; reflexivity.
Qed.

(** ** Categories and segments *)

Lemma category_cons (c : ascii) (s : string) :
  category (String c s)
  = if Ascii.eqb c "." then "" else String c (category s).
Proof.
  unfold category. simpl. destruct (Ascii.eqb c "."); [reflexivity|].
  destruct (split "." s); reflexivity.
Qed.

(** A test [key.startswith(p)] with a dot-free [p] reads the first
    segment only. *)
Lemma startswith_category (p key : string) :
  no_dot p = true -> startswith (category key) p = startswith key p.
Proof.
  unfold startswith. revert key. induction p as [|a p IH]; intros key Hp.
  - destruct key, (category _); reflexivity.
  - simpl in Hp. apply andb_prop in Hp. destruct Hp as [Ha Hp].
    apply negb_true_iff in Ha.
    destruct key as [|c key]; [reflexivity|].
    rewrite category_cons. destruct (Ascii.eqb_spec c ".") as [->|Hc].
    + simpl. destruct (ascii_dec a ".") as [->|_]; [|reflexivity].
      rewrite Ascii.eqb_refl in Ha. discriminate Ha.
    + simpl. destruct (ascii_dec a c); [apply IH, Hp | reflexivity].
Qed.

Section Categories.

Variable fails : oracle.

(** C9. For a key of the [button] category the dispatcher clicks
    [button[name='value']] and nothing else on the page; the result is
    the same for every other key of the category, so the segments behind
    the category play no part. *)
Theorem dispatch_button_click (key value : string) (h : history) :
  startswith (category key) "button" = true ->
  issued (dispatch_instruction fails key value) h
  = Click ("button[name='" ++ value ++ "']")
      :: (if fails h (Click ("button[name='" ++ value ++ "']")) then []
          else [Sleep time_to_wait]) /\
  forall key', startswith (category key') "button" = true ->
    dispatch_instruction fails key' value h = dispatch_instruction fails key value h.
Proof.
  rewrite startswith_category by reflexivity. intro H. split.
  - unfold issued. rewrite dispatch_button by assumption. cbv zeta.
    destruct (fails h _); simpl fst; rewrite skipn_history; reflexivity.
  - intros key'. rewrite startswith_category by reflexivity. intro H'.
    rewrite !dispatch_button by assumption. reflexivity.
Qed.

Ltac field_branch key h :=
  cbv beta iota zeta delta [when bind index];
  destruct (nth_error (split "." key) 1) as [seg1|]; [|reflexivity];
  cbv beta iota delta [ret];
  destruct (startswith seg1 "placeholder"); [|reflexivity];
  destruct (nth_error (split "." key) 2) as [seg2|]; [|reflexivity];
  cbv beta iota delta [ret playwright sleep]; simpl append;
  destruct (fails h _); [reflexivity|];
  rewrite <- app_assoc; reflexivity.

(** What the [input] and [textarea] branches do, by the segments of the
    key. *)
Lemma dispatch_field (tag key value : string) (h : history) :
  tag = "input" \/ tag = "textarea" ->
  startswith key tag = true ->
  dispatch_instruction fails key value h
  = match nth_error (split "." key) 1 with
    | None => (h, Raise IndexError)
    | Some seg1 =>
        if startswith seg1 "placeholder" then
          match nth_error (split "." key) 2 with
          | None => (h, Raise IndexError)
          | Some seg2 =>
              let c := Fill (tag ++ "[placeholder='" ++ seg2 ++ "']") value in
              if fails h c then ((h ++ [c])%list, Raise (PlaywrightError c))
              else ((h ++ [c; Sleep time_to_wait])%list, Ok tt)
          end
        else ((h ++ [Sleep time_to_wait])%list, Ok tt)
    end.
Proof.
  intros [-> | ->] H; unfold dispatch_instruction.
  - assert (Hu : startswith key "url" = false) by other_category H.
    assert (Ht : startswith key "textarea" = false) by other_category H.
    assert (Hb : startswith key "button" = false) by other_category H.
    rewrite H, Hu, Ht, Hb.
    field_branch key h.
  - assert (Hu : startswith key "url" = false) by other_category H.
    assert (Hi : startswith key "input" = false) by other_category H.
    assert (Hb : startswith key "button" = false) by other_category H.
    rewrite H, Hu, Hi, Hb.
    field_branch key h.
Qed.

(** C10. A key of the [input] or [textarea] category whose second segment
    starts with [placeholder] and which has no third segment makes the
    dispatcher raise [IndexError]; no call is issued and the instruction
    is not skipped. *)
Theorem dispatch_placeholder_without_text (tag key value seg1 : string) (h : history) :
  tag = "input" \/ tag = "textarea" ->
  startswith key tag = true ->
  nth_error (split "." key) 1 = Some seg1 ->
  startswith seg1 "placeholder" = true ->
  nth_error (split "." key) 2 = None ->
  dispatch_instruction fails key value h = (h, Raise IndexError).
Proof.
  intros Htag Hkey H1 Hp H2.
  rewrite (dispatch_field tag) by assumption.
  rewrite H1, Hp, H2. reflexivity.
Qed.

End Categories.

(** Instance of C9. *)
Lemma dispatch_button_click_witness :
  startswith (category "button.Submit") "button" = true /\
  issued (dispatch_instruction (fun _ _ => false) "button.Submit" "go") []
  = [Click "button[name='go']"; Sleep 3].
Proof.
  split; [reflexivity|].
  apply (dispatch_button_click (fun _ _ => false) "button.Submit" "go" []). reflexivity.
Defined.

(** Instance of C10: the key [input.placeholder]. *)
Lemma dispatch_placeholder_without_text_witness :
  dispatch_instruction (fun _ _ => false) "input.placeholder" "Ann" [] = ([], Raise IndexError).
Proof.
  apply (dispatch_placeholder_without_text (fun _ _ => false) "input" "input.placeholder" "Ann"
           "placeholder" []); first [reflexivity | left; reflexivity].
Defined.

(** ** Fills *)

(** C7. For a key of the [input] or [textarea] category a fill is issued
    exactly when the key has a second segment starting with
    [placeholder] and a third segment; the fill then targets
    [tag[placeholder='third segment']] with the instruction's value and
    is the only page action; a second segment that does not start with
    [placeholder] gives no page action and no error. *)
Theorem dispatch_fill_iff (fails : oracle) (tag key value : string) (h : history) :
  tag = "input" \/ tag = "textarea" ->
  startswith (category key) tag = true ->
  ((exists sel v, In (Fill sel v) (issued (dispatch_instruction fails key value) h)) <->
   (exists seg1 seg2,
      nth_error (split "." key) 1 = Some seg1 /\
      startswith seg1 "placeholder" = true /\
      nth_error (split "." key) 2 = Some seg2)) /\
  (forall seg1 seg2,
      nth_error (split "." key) 1 = Some seg1 ->
      startswith seg1 "placeholder" = true ->
      nth_error (split "." key) 2 = Some seg2 ->
      exists rest,
        issued (dispatch_instruction fails key value) h
        = Fill (tag ++ "[placeholder='" ++ seg2 ++ "']") value :: rest /\
        forallb (fun c => negb (is_page_action c)) rest = true) /\
  (forall seg1,
      nth_error (split "." key) 1 = Some seg1 ->
      startswith seg1 "placeholder" = false ->
      issued (dispatch_instruction fails key value) h = [Sleep time_to_wait] /\
      outcome (dispatch_instruction fails key value) h = Ok tt).
Proof.
  intros Htag Hcat.
  assert (Hkey : startswith key tag = true).
  { rewrite <- Hcat. symmetry. apply startswith_category.
    destruct Htag as [-> | ->]; reflexivity. }
  unfold issued, outcome. rewrite (dispatch_field fails tag) by assumption.
  destruct (nth_error (split "." key) 1) as [seg1|].
  2:{ simpl. rewrite skipn_all. split; [split | split].
      - intros (sel & v & []).
      - intros (s1 & s2 & E & _). discriminate E.
      - intros s1 s2 E. discriminate E.
      - intros s1 E. discriminate E. }
  destruct (startswith seg1 "placeholder") eqn:Hp.
  - destruct (nth_error (split "." key) 2) as [seg2|].
    + cbv zeta.
      destruct (fails h _); simpl fst; simpl snd; rewrite skipn_history;
        (split; [split | split];
         [ intros _; exists seg1, seg2; repeat split; exact Hp
         | intros _; eexists; eexists; left; reflexivity
         | intros s1 s2 E1 _ E2; injection E2 as <-; eexists; split; reflexivity
         | intros s1 E1 Hs1; injection E1 as <-; congruence ]).
    + simpl. rewrite skipn_all. split; [split | split].
      * intros (sel & v & []).
      * intros (s1 & s2 & _ & _ & E). discriminate E.
      * intros s1 s2 _ _ E. discriminate E.
      * intros s1 E1 Hs1. injection E1 as <-. congruence.
  - simpl fst. simpl snd. rewrite skipn_history. split; [split | split].
    + intros (sel & v & [E | []]). discriminate E.
    + intros (s1 & s2 & E & Hs1 & _). injection E as <-. congruence.
    + intros s1 s2 E Hs1. injection E as <-. congruence.
    + intros s1 _ _. split; reflexivity.
Qed.

(** Instance of C7: the key [input.placeholder1.Name]. *)
Lemma dispatch_fill_iff_witness :
  exists rest,
    issued (dispatch_instruction (fun _ _ => false) "input.placeholder1.Name" "Ann") []
    = Fill "input[placeholder='Name']" "Ann" :: rest /\
    forallb (fun c => negb (is_page_action c)) rest = true.
Proof.
  exact (proj1 (proj2 (dispatch_fill_iff (fun _ _ => false) "input"
                         "input.placeholder1.Name" "Ann" [] (or_introl eq_refl) eq_refl))
           "placeholder1" "Name" eq_refl eq_refl eq_refl).
Defined.

(** The key [input.placeholder] is of the [input] category and its second
    segment starts with [placeholder], yet no fill is issued for it. *)
Lemma dispatch_fill_needs_third_segment :
  startswith (category "input.placeholder") "input" = true /\
  (exists seg1, nth_error (split "." "input.placeholder") 1 = Some seg1 /\
                startswith seg1 "placeholder" = true) /\
  ~ (exists sel v,
       In (Fill sel v) (issued (dispatch_instruction (fun _ _ => false) "input.placeholder" "Ann") [])).
Proof.
  split; [reflexivity|]. split.
  - exists "placeholder". split; reflexivity.
  - intros (sel & v & []).
Qed.

(** ** The session: where the trace is stopped *)

Lemma tame_ret {A} (a : A) : tame (ret a).
Proof.
  intro h. exists []. simpl. rewrite app_nil_r. repeat split. discriminate.
Qed.

Lemma tame_bind {A B} (m : M A) (k : A -> M B) :
  tame m -> (forall a, tame (k a)) -> tame (bind m k).
Proof.
  intros Hm Hk h. unfold bind.
  destruct (Hm h) as (n1 & E1 & F1 & R1).
  destruct (m h) as [h1 [a|e]]; simpl in E1, R1; subst h1.
  - destruct (Hk a (h ++ n1)%list) as (n2 & E2 & F2 & R2).
    exists (n1 ++ n2)%list. rewrite E2, app_assoc, forallb_app, F1, F2.
    repeat split. exact R2.
  - exists n1. simpl. split; [reflexivity | split; [assumption|]].
    intros e0 E. injection E as <-. apply R1. reflexivity.
Qed.

Lemma tame_when (b : bool) (body : M unit) : tame body -> tame (when b body).
Proof.
  destruct b; simpl; [trivial | intros _; apply tame_ret].
Qed.

Lemma tame_index (l : list string) (i : nat) : tame (index l i).
Proof.
  unfold index. destruct (nth_error l i); [apply tame_ret|].
  intro h. exists []. simpl. rewrite app_nil_r. repeat split.
  intros e E. injection E as <-. left. reflexivity.
Qed.

Lemma tame_sleep (n : nat) : tame (sleep n).
Proof.
  intro h. exists [Sleep n]. repeat split. discriminate.
Qed.

Lemma tame_playwright (fails : oracle) (c : call) :
  is_page_action c = true -> tame (playwright fails c).
Proof.
  intros Hc h. exists [c]. unfold playwright. simpl.
  repeat split.
  - destruct c; try discriminate Hc; reflexivity.
  - destruct (fails h c); [|discriminate].
    intros e E. injection E as <-. right. exists c. split; [reflexivity | exact Hc].
Qed.

Lemma tame_dispatch (fails : oracle) (key value : string) :
  tame (dispatch_instruction fails key value).
Proof.
  unfold dispatch_instruction. cbv zeta.
  repeat first
    [ apply tame_bind; [|intro]
    | apply tame_when
    | apply tame_playwright; reflexivity
    | apply tame_sleep
    | apply tame_index ].
Qed.

Lemma tame_run_instructions (fails : oracle) (testItem : dict) :
  tame (run_instructions fails testItem).
Proof.
  induction testItem as [|[k v] rest IH]; simpl.
  - apply tame_ret.
  - apply tame_bind; [apply tame_dispatch | intros _; exact IH].
Qed.

Lemma index_from_end_pure (l : list string) (i : nat) (h : history) :
  index_from_end l i h = (h, Raise IndexError) \/
  exists s, index_from_end l i h = (h, Ok s).
Proof.
  unfold index_from_end, index.
  destruct (Nat.leb i (List.length l) && Nat.leb 1 i); [|left; reflexivity].
  destruct (nth_error l (List.length l - i)) as [s|]; [right; exists s|left]; reflexivity.
Qed.

Lemma loop_call_not_stop (new : list call) (p : string) :
  forallb loop_call new = true -> ~ In (TracingStop p) new.
Proof.
  intros H Hin. rewrite forallb_forall in H. apply H in Hin. discriminate Hin.
Qed.

(** A run whose click fails: the calls issued are the session set-up, the
    navigation, the failing click and the exit of the Playwright manager;
    the trace is not stopped and the exception reaches the caller. *)
Lemma trace_left_open_on_failure :
  run (testExecution (fun _ c => match c with Click _ => true | _ => false end) "out"
         [("run.url", "http://x"); ("run.button.go", "go")])
  = ([Launch; NewContext; NewPage; TracingStart; Goto "http://x";
      Click "button[name='go']"; PlaywrightExit],
     Raise (PlaywrightError (Click "button[name='go']"))) /\
  ~ In (TracingStop "out/trace.zip")
       [Launch; NewContext; NewPage; TracingStart; Goto "http://x";
        Click "button[name='go']"; PlaywrightExit].
Proof.
  split; [reflexivity|]. simpl. intuition discriminate.
Qed.

(** ** Selector synthesis *)

Lemma dict_get_set_same {V} (d : pydict V) (k : string) (v : V) :
  dict_get (dict_set d k v) k = Some v.
Proof.
  induction d as [|[k' v'] d IH]; simpl.
  - rewrite String.eqb_refl. reflexivity.
  - destruct (String.eqb k' k) eqn:E; simpl; rewrite E; [reflexivity | exact IH].
Qed.

Lemma dict_get_set_other {V} (d : pydict V) (k k' : string) (v : V) :
  k <> k' -> dict_get (dict_set d k v) k' = dict_get d k'.
Proof.
  intro Hne. induction d as [|[k0 v0] d IH]; simpl.
  - destruct (String.eqb_spec k k'); [contradiction | reflexivity].
  - destruct (String.eqb_spec k0 k) as [->|Hk]; simpl.
    + destruct (String.eqb_spec k k'); [contradiction | reflexivity].
    + destruct (String.eqb k0 k'); [reflexivity | exact IH].
Qed.

Lemma in_scrape_each {element} (f : element -> option record) (els : list element)
      (d : record) :
  In d (scrape_each _ f els) -> exists el, In el els /\ f el = Some d.
Proof.
  unfold scrape_each. rewrite in_flat_map. intros (el & Hin & Hd).
  exists el. split; [assumption|].
  destruct (f el) as [d'|]; [|destruct Hd].
  destruct Hd as [-> | []]. reflexivity.
Qed.

Section Synthesis.

Variable element : Type.
Variable locator_all : string -> option (list element).
Variable get_attribute : element -> string -> option (option string).
Variable inner_text : element -> option string.

(** What the loop of [_get_inputs] / [_get_textareas] leaves in the
    record: either no candidate was answered by exactly one element and
    the record is unchanged, or the record gains the [xpath] of a
    candidate that was. *)
Lemma field_xpath_loop_result (tag : string) (data d : record) (ps : list string) :
  field_xpath_loop element locator_all tag data ps = Some d ->
  (d = data /\
   forall p v, In p ps -> dict_get data p = Some v ->
     matches_one locator_all (field_xpath tag p v) = false) \/
  (exists p v,
     In p ps /\ dict_get data p = Some v /\
     matches_one locator_all (field_xpath tag p v) = true /\
     d = dict_set data "xpath" (PStr (field_xpath tag p v))).
Proof.
  induction ps as [|p ps IH]; simpl; intro H.
  - injection H as <-. left. split; [reflexivity | intros p v []].
  - unfold obind in H.
    destruct (dict_get data p) as [v|] eqn:Ev; [|discriminate H].
    destruct (locator_all (field_xpath tag p v)) as [els|] eqn:El; [|discriminate H].
    destruct (Nat.eqb (List.length els) 1) eqn:En.
    + injection H as <-. right. exists p, v. repeat split; auto.
      unfold matches_one. rewrite El. exact En.
    + destruct (IH H) as [[-> Hnone] | (p' & v' & Hin & Hv & Hm & ->)].
      * left. split; [reflexivity|]. intros p' v' [<- | Hin] Hv'.
        -- rewrite Ev in Hv'. injection Hv' as <-.
           unfold matches_one. rewrite El. exact En.
        -- apply Hnone; assumption.
      * right. exists p', v'. repeat split; auto.
Qed.

(** The same for one element of the page. *)
Lemma field_record_result (tag : string) (el : element) (d : record) :
  field_record element locator_all get_attribute tag el = Some d ->
  (forall x, dict_get d "xpath" = Some x ->
     exists s els, x = PStr s /\ locator_all s = Some els /\ List.length els = 1) /\
  ((forall p v, In p ["data-testid"; "id"; "name"; "type"] -> dict_get d p = Some v ->
      matches_one locator_all (field_xpath tag p v) = false) ->
   dict_get d "xpath" = None).
Proof.
  unfold field_record, obind.
  destruct (get_attribute el "type") as [a_type|]; [|discriminate].
  destruct (get_attribute el "name") as [a_name|]; [|discriminate].
  destruct (get_attribute el "id") as [a_id|]; [|discriminate].
  destruct (get_attribute el "data-testid") as [a_testid|]; [|discriminate].
  destruct (get_attribute el "value") as [a_value|]; [|discriminate].
  destruct (get_attribute el "placeholder") as [a_placeholder|]; [|discriminate].
  destruct (get_attribute el "required") as [a_required|]; [|discriminate].
  destruct (get_attribute el "disabled") as [a_disabled|]; [|discriminate].
  cbv zeta. intro H. apply field_xpath_loop_result in H.
  destruct H as [[-> Hnone] | (p & v & Hin & Hv & Hm & ->)].
  - split; [intros x Hx; discriminate Hx | reflexivity].
  - split.
    + intros x Hx. rewrite dict_get_set_same in Hx. injection Hx as <-.
      unfold matches_one in Hm.
      destruct (locator_all (field_xpath tag p v)) as [els|] eqn:El; [|discriminate Hm].
      exists (field_xpath tag p v), els.
      split; [reflexivity | split; [exact El | apply Nat.eqb_eq; exact Hm]].
    + intros Hnone. exfalso.
      assert (Hp : p <> "xpath").
      { destruct Hin as [<- | [<- | [<- | [<- | []]]]]; discriminate. }
      rewrite (Hnone p v Hin) in Hm; [discriminate Hm|].
      rewrite dict_get_set_other by (intro E; apply Hp; symmetry; exact E).
      exact Hv.
Qed.

(** C5. Every record of [_get_inputs] and of [_get_textareas] that has an
    [xpath] entry has one the page answered with exactly one element;
    and when none of the candidates [data-testid], [id], [name], [type]
    of the record is answered with exactly one element, the record has no
    [xpath] entry. *)
Theorem field_xpath_unique_or_absent (tag : string) (records : list record) :
  (tag = "input" /\ _get_inputs element locator_all get_attribute = Some records) \/
  (tag = "textarea" /\ _get_textareas element locator_all get_attribute = Some records) ->
  forall d, In d records ->
    (forall x, dict_get d "xpath" = Some x ->
       exists s els, x = PStr s /\ locator_all s = Some els /\ List.length els = 1) /\
    ((forall p v, In p ["data-testid"; "id"; "name"; "type"] -> dict_get d p = Some v ->
        matches_one locator_all (field_xpath tag p v) = false) ->
     dict_get d "xpath" = None).
Proof.
  intros [[-> H] | [-> H]] d Hin.
  - unfold _get_inputs, obind in H.
    destruct (locator_all "input") as [els|]; [|discriminate H].
    injection H as <-. apply in_scrape_each in Hin. destruct Hin as (el & _ & Hel).
    exact (field_record_result "input" el d Hel).
  - unfold _get_textareas, obind in H.
    destruct (locator_all "textarea") as [els|]; [|discriminate H].
    injection H as <-. apply in_scrape_each in Hin. destruct Hin as (el & _ & Hel).
    exact (field_record_result "textarea" el d Hel).
Qed.

End Synthesis.

(** Instance of C5: the input with an id gets the id selector, which the
    page answers with one element. *)
Lemma field_xpath_unique_or_absent_witness :
  _get_inputs node two_inputs_page node_attribute
  = Some [ [("type", PStr "text"); ("name", PStr "q"); ("id", PStr "user");
            ("data-testid", PStr ""); ("value", PStr ""); ("placeholder", PStr "");
            ("required", PBool false); ("disabled", PBool false);
            ("xpath", PStr "//input[@id='user']")];
           [("type", PStr "text"); ("name", PStr "q"); ("id", PStr "");
            ("data-testid", PStr ""); ("value", PStr ""); ("placeholder", PStr "");
            ("required", PBool false); ("disabled", PBool false)] ] /\
  exists s els,
    PStr "//input[@id='user']" = PStr s /\
    two_inputs_page s = Some els /\ List.length els = 1.
Proof.
  split; [reflexivity|].
  refine (proj1 (field_xpath_unique_or_absent node two_inputs_page node_attribute
                   "input" _ (or_introl (conj eq_refl eq_refl)) _ (or_introl eq_refl))
            (PStr "//input[@id='user']") eq_refl).
Defined.

Section Buttons.

Variable element : Type.
Variable locator_all : string -> option (list element).
Variable get_attribute : element -> string -> option (option string).
Variable inner_text : element -> option string.





End Buttons.


(** C6. [_get_buttons] lists submit and button inputs beside [button]
    elements, and builds every candidate selector on [//button].  On the
    page whose buttons are two submit inputs named [submit] with the ids
    [save] and [send] it lists both and gives neither a selector, by id or
    otherwise; [_get_inputs] gives the same two elements their id
    selectors [//input[@id='save']] and [//input[@id='send']]. *)
Theorem submit_inputs_get_no_selector :
  _get_buttons node submit_inputs_page node_attribute node_inner_text
  = Some [ [("text", PStr ""); ("type", PStr "submit"); ("name", PStr "submit");
            ("id", PStr "save"); ("disabled", PBool false)];
           [("text", PStr ""); ("type", PStr "submit"); ("name", PStr "submit");
            ("id", PStr "send"); ("disabled", PBool false)] ] /\
  map (fun r => dict_get r "xpath")
      (match _get_buttons node submit_inputs_page node_attribute node_inner_text with
       | Some rs => rs
       | None => []
       end)
  = [None; None] /\
  map (fun r => dict_get r "xpath")
      (match _get_inputs node submit_inputs_page node_attribute with
       | Some rs => rs
       | None => []
       end)
  = [Some (PStr "//input[@id='save']"); Some (PStr "//input[@id='send']")].
Proof.
  repeat split.
Qed.

(** ** Runs of the specification's scenarios *)

Example scenario1_prefix :
  find_common_prefix ["run1.input.placeholder1.Name"; "run1.button.Submit"] = "run1.".
Proof. reflexivity. Qed.

Example scenario1_normalised :
  remove_common_prefix
    [("run1.input.placeholder1.Name", "Ann"); ("run1.button.Submit", "go")] "run1."
  = [("input.placeholder1.Name", "Ann"); ("button.Submit", "go")].
Proof. reflexivity. Qed.

Example scenario1_run :
  run (testExecution (fun _ _ => false) "out"
         [("run1.input.placeholder1.Name", "Ann"); ("run1.button.Submit", "go")])
  = ([Launch; NewContext; NewPage; TracingStart;
      Fill "input[placeholder='Name']" "Ann"; Sleep 3;
      Click "button[name='go']"; Sleep 3;
      TracingStop "out/trace.zip"; BrowserClose; PlaywrightExit], Ok true).
Proof. reflexivity. Qed.

(** A single key is its own common prefix: the stripped key is empty and
    the run navigates nowhere. *)
Example scenario3_single_key :
  find_common_prefix ["a.b.url.value"] = "a.b.url.value" /\
  remove_common_prefix [("a.b.url.value", "http://x")] "a.b.url.value"
  = [("", "http://x")] /\
  run (testExecution (fun _ _ => false) "out" [("a.b.url.value", "http://x")])
  = ([Launch; NewContext; NewPage; TracingStart;
      TracingStop "out/trace.zip"; BrowserClose; PlaywrightExit], Ok true).
Proof. repeat split. Qed.

(** [str.replace] takes out every occurrence, not the leading one only. *)
Example replace_every_occurrence :
  replace "abab" "ab" "" = "" /\ replace "aaa" "aa" "" = "a" /\ replace "abc" "" "" = "abc".
Proof. repeat split. Qed.

Example split_segments :
  split "." "a.b" = ["a"; "b"] /\ split "." "" = [""] /\ split "." "a." = ["a"; ""].
Proof. repeat split. Qed.

(** * Further properties of the normaliser and of the interpreter *)

(** ** The stripped mapping *)

Lemma replace_empty_old (s : string) : replace s "" "" = s.
Proof.
  unfold replace. induction s as [|c s IH]; simpl; [reflexivity|].
  rewrite IH. reflexivity.
Qed.

(** X1. With the empty prefix [remove_common_prefix] gives the mapping
    back unchanged: same keys, same values, same order. *)
Theorem remove_common_prefix_empty_prefix (json_dict : dict) :
  NoDup (keys json_dict) -> remove_common_prefix json_dict "" = json_dict.
Proof.
  intro Hnd.
  assert (Hk : map (fun k => replace k "" "") (keys json_dict) = keys json_dict).
  { rewrite <- (map_id (keys json_dict)) at 2. apply map_ext. apply replace_empty_old. }
  rewrite remove_common_prefix_order by (rewrite Hk; exact Hnd).
  rewrite <- (map_id json_dict) at 2. apply map_ext.
  intros [k v]. cbn [fst snd]. rewrite replace_empty_old. reflexivity.
Qed.

Lemma remove_common_prefix_empty_prefix_witness :
  remove_common_prefix [("url", "http://x"); ("button", "go")] ""
  = [("url", "http://x"); ("button", "go")].
Proof.
  apply remove_common_prefix_empty_prefix.
  repeat constructor; simpl; intuition discriminate.
Defined.

Lemma find_app_last {A} (f : A -> bool) (l : list A) (a : A) :
  find f (l ++ [a])%list
  = match find f l with
    | Some x => Some x
    | None => if f a then Some a else None
    end.
Proof.
  induction l as [|b l IH]; simpl; [reflexivity|].
  destruct (f b); [reflexivity | exact IH].
Qed.

(** X2. Looking a key up in the stripped mapping gives the value of the
    last instruction of the input whose stripped key it is: when stripped
    keys collide, the later instruction overwrites the earlier one. *)
Theorem remove_common_prefix_lookup (json_dict : dict) (common_prefix k : string) :
  dict_get (remove_common_prefix json_dict common_prefix) k
  = option_map snd
      (find (fun kv => String.eqb (replace (fst kv) common_prefix "") k) (rev json_dict)).
Proof.
  unfold remove_common_prefix.
  set (step := fun acc kv => dict_set acc (replace (fst kv) common_prefix "") (snd kv)).
  set (f := fun kv : string * string => String.eqb (replace (fst kv) common_prefix "") k).
  enough (G : forall acc : dict,
             dict_get (fold_left step json_dict acc) k
             = match find f (rev json_dict) with
               | Some kv => Some (snd kv)
               | None => dict_get acc k
               end).
  { rewrite (G []). destruct (find f (rev json_dict)); reflexivity. }
  induction json_dict as [|[k0 v0] d IH]; intro acc; simpl; [reflexivity|].
  rewrite IH, find_app_last.
  destruct (find f (rev d)); [reflexivity|].
  unfold f, step. simpl fst. simpl snd.
  destruct (String.eqb_spec (replace k0 common_prefix "") k) as [->|Hne].
  - apply dict_get_set_same.
  - apply dict_get_set_other. exact Hne.
Qed.

Lemma keys_dict_set {V} (d : pydict V) (k : string) (v : V) :
  keys (dict_set d k v) = if existsb (String.eqb k) (keys d) then keys d
                          else (keys d ++ [k])%list.
Proof.
  induction d as [|[k' v'] d IH]; simpl; [reflexivity|].
  rewrite (String.eqb_sym k k').
  destruct (String.eqb k' k); simpl; [reflexivity|].
  rewrite IH. destruct (existsb (String.eqb k) (keys d)); reflexivity.
Qed.

Lemma existsb_eqb_in (k : string) (l : list string) :
  existsb (String.eqb k) l = true <-> In k l.
Proof.
  rewrite existsb_exists. split.
  - intros (x & Hin & E). apply String.eqb_eq in E. subst x. exact Hin.
  - intro Hin. exists k. split; [exact Hin | apply String.eqb_refl].
Qed.

Lemma NoDup_snoc (l : list string) (k : string) :
  NoDup l -> ~ In k l -> NoDup (l ++ [k])%list.
Proof.
  intros Hl Hk. induction Hl as [|x l Hx Hl IH]; simpl.
  - constructor; [intros [] | constructor].
  - constructor.
    + intro Hin. apply in_app_or in Hin. destruct Hin as [Hin | [E | []]].
      * exact (Hx Hin).
      * apply Hk. left. symmetry. exact E.
    + apply IH. intro Hin. apply Hk. right. exact Hin.
Qed.

(** X3. The stripped mapping is a mapping again: its keys are pairwise
    distinct, they are exactly the stripped keys of the input, and it has
    no more entries than the input. *)
Theorem remove_common_prefix_keys (json_dict : dict) (common_prefix : string) :
  NoDup (keys (remove_common_prefix json_dict common_prefix)) /\
  (forall k', In k' (keys (remove_common_prefix json_dict common_prefix)) <->
              exists k, In k (keys json_dict) /\ k' = replace k common_prefix "") /\
  List.length (remove_common_prefix json_dict common_prefix) <= List.length json_dict.
Proof.
  unfold remove_common_prefix.
  set (step := fun acc kv => dict_set acc (replace (fst kv) common_prefix "") (snd kv)).
  enough (G : forall acc : dict,
             NoDup (keys acc) ->
             NoDup (keys (fold_left step json_dict acc)) /\
             (forall k', In k' (keys (fold_left step json_dict acc)) <->
                In k' (keys acc) \/
                exists k, In k (keys json_dict) /\ k' = replace k common_prefix "") /\
             List.length (fold_left step json_dict acc)
             <= List.length acc + List.length json_dict).
  { destruct (G [] (NoDup_nil _)) as (H1 & H2 & H3). repeat split; auto.
    - intro H. apply H2 in H. destruct H as [[] | H]. exact H.
    - intro H. apply H2. right. exact H. }
  induction json_dict as [|[k0 v0] d IH]; intros acc Hacc; simpl.
  - repeat split; auto; [|lia]. intros [H | (k & [] & _)]. exact H.
  - assert (Hset : NoDup (keys (step acc (k0, v0)))).
    { unfold step. simpl. rewrite keys_dict_set.
      destruct (existsb (String.eqb (replace k0 common_prefix "")) (keys acc)) eqn:E;
        [exact Hacc|].
      apply NoDup_snoc; [exact Hacc|].
      intro Hin. apply existsb_eqb_in in Hin. congruence. }
    destruct (IH _ Hset) as (H1 & H2 & H3).
    assert (Hkeys : forall k', In k' (keys (step acc (k0, v0))) <->
                               In k' (keys acc) \/ k' = replace k0 common_prefix "").
    { intro k'. unfold step. simpl. rewrite keys_dict_set.
      destruct (existsb (String.eqb (replace k0 common_prefix "")) (keys acc)) eqn:E.
      - apply existsb_eqb_in in E. split; [auto|]. intros [H | ->]; assumption.
      - rewrite in_app_iff. simpl. split.
        + intros [H | [<- | []]]; auto.
        + intros [H | ->]; auto. }
    assert (Hlen : List.length (step acc (k0, v0)) <= S (List.length acc)).
    { unfold step. simpl. generalize (replace k0 common_prefix "").
      intro k. clear. induction acc as [|[k' v'] acc IHa]; simpl; [lia|].
      destruct (String.eqb k' k); simpl; lia. }
    repeat split; [exact H1 | | | lia].
    + intro H. apply H2 in H. destruct H as [H | (k & Hk & ->)].
      * apply Hkeys in H. destruct H as [H | ->]; [left; exact H|].
        right. exists k0. split; [left; reflexivity | reflexivity].
      * right. exists k. split; [right; exact Hk | reflexivity].
    + intro H. apply H2. destruct H as [H | (k & [<- | Hk] & ->)].
      * left. apply Hkeys. left. exact H.
      * left. apply Hkeys. right. reflexivity.
      * right. exists k. split; [exact Hk | reflexivity].
Qed.

(** ** The common prefix *)

Lemma prefix_refl (s : string) : String.prefix s s = true.
Proof.
  induction s as [|c s IH]; simpl; [reflexivity|].
  destruct (ascii_dec c c); [exact IH | contradiction].
Qed.

Lemma prefix_same_length (p q s : string) :
  String.prefix p s = true -> String.prefix q s = true ->
  String.length p = String.length q -> p = q.
Proof.
  revert q s. induction p as [|a p IH]; intros [|b q] [|c s] Hp Hq Hl;
    try reflexivity; try discriminate.
  apply prefix_cons in Hp. apply prefix_cons in Hq.
  destruct Hp as [-> Hp], Hq as [-> Hq]. f_equal.
  apply (IH q s); [assumption | assumption | simpl in Hl; lia].
Qed.

(** The result is a common prefix and bounds every common prefix. *)
Lemma find_common_prefix_bounds (s0 : string) (rest : list string) :
  (forall s, In s (s0 :: rest) ->
     String.prefix (find_common_prefix (s0 :: rest)) s = true) /\
  (forall q, (forall s, In s (s0 :: rest) -> String.prefix q s = true) ->
     String.length q <= String.length (find_common_prefix (s0 :: rest))).
Proof.
  unfold find_common_prefix.
  set (strings := s0 :: rest). set (shortest := min_len s0 rest).
  assert (Hle : forall s, In s strings -> shortest <= String.length s)
    by (intros s Hin; apply min_len_le; assumption).
  assert (H0 : In s0 strings) by (left; reflexivity).
  destruct (scan_prefix_stops strings s0 shortest shortest 0)
    as (j & Hj & -> & Hagree & Hstop); [reflexivity | intros s k _ Hk; lia |].
  split.
  - intros s Hin. rewrite (slice_to_agree s0 s j).
    + apply slice_to_prefix.
    + specialize (Hle _ H0). lia.
    + specialize (Hle _ Hin). lia.
    + intros k Hk. symmetry. apply Hagree; assumption.
  - intros q Hq. rewrite slice_to_length. specialize (Hle _ H0) as Hle0.
    destruct Hstop as [-> | (s & Hin & Hdiff)].
    + destruct (min_len_attained s0 rest) as (m & Hin & E).
      specialize (Hq _ Hin). apply prefix_length in Hq. fold shortest in E. lia.
    + destruct (Nat.le_gt_cases (String.length q) j) as [Hqj | Hqj]; [lia|].
      exfalso. apply Hdiff.
      rewrite (prefix_get q s j), (prefix_get q s0 j); auto.
Qed.

(** X4. The common prefix depends on the set of keys only: two sequences
    with the same members, in any order and with any repetitions, have
    the same common prefix, although the scan reads the first key. *)
Theorem find_common_prefix_same_keys (l l' : list string) :
  (forall s, In s l <-> In s l') ->
  find_common_prefix l = find_common_prefix l'.
Proof.
  intro Hsame.
  destruct l as [|a l], l' as [|a' l'].
  - reflexivity.
  - exfalso. apply (Hsame a'). left. reflexivity.
  - exfalso. apply (Hsame a). left. reflexivity.
  - destruct (find_common_prefix_bounds a l) as [P1 M1].
    destruct (find_common_prefix_bounds a' l') as [P2 M2].
    apply (prefix_same_length _ _ a).
    + apply P1. left. reflexivity.
    + apply P2. apply Hsame. left. reflexivity.
    + apply Nat.le_antisymm.
      * apply M2. intros s Hin. apply P1. apply Hsame. exact Hin.
      * apply M1. intros s Hin. apply P2. apply Hsame. exact Hin.
Qed.

Lemma find_common_prefix_same_keys_witness :
  find_common_prefix ["run.url"; "run.button.go"]
  = find_common_prefix ["run.button.go"; "run.url"; "run.button.go"].
Proof.
  apply find_common_prefix_same_keys. intro s. simpl. tauto.
Defined.

Lemma find_common_prefix_single (k : string) : find_common_prefix [k] = k.
Proof.
  destruct (find_common_prefix_bounds k []) as [P M].
  apply (prefix_same_length _ _ k).
  - apply P. left. reflexivity.
  - apply prefix_refl.
  - apply Nat.le_antisymm.
    + apply prefix_length. apply P. left. reflexivity.
    + apply M. intros s [<- | []]. apply prefix_refl.
Qed.

Lemma append_empty_r (s : string) : s ++ "" = s.
Proof.
  induction s as [|c s IH]; simpl; [reflexivity | rewrite IH; reflexivity].
Qed.

Lemma replace_whole (k : string) : replace k k "" = "".
Proof.
  destruct k as [|c k]; [reflexivity|].
  rewrite <- (append_empty_r (String c k)) at 1.
  rewrite replace_leading by discriminate. reflexivity.
Qed.

(** ** The shape of a session *)

Lemma split_length_pos (sep : ascii) (s : string) : 1 <= List.length (split sep s).
Proof.
  induction s as [|c s IH]; simpl; [lia|].
  destruct (Ascii.eqb c sep); simpl; [lia|].
  destruct (split sep s); simpl; lia.
Qed.

Lemma split_no_dot (s : string) :
  (no_dot s = true -> split "." s = [s]) /\
  (no_dot s = false -> 2 <= List.length (split "." s)).
Proof.
  induction s as [|c s [IH1 IH2]]; simpl.
  - split; [reflexivity | discriminate].
  - destruct (Ascii.eqb c "."); simpl.
    + split; [discriminate|]. intros _.
      pose proof (split_length_pos "." s). lia.
    + split.
      * intro H. rewrite (IH1 H). reflexivity.
      * intro H. specialize (IH2 H).
        destruct (split "." s) as [|seg rest]; simpl in *; lia.
Qed.

Lemma index_from_end_split (s : string) (h : history) :
  (no_dot s = true -> index_from_end (split "." s) 2 h = (h, Raise IndexError)) /\
  (no_dot s = false -> exists seg, index_from_end (split "." s) 2 h = (h, Ok seg)).
Proof.
  destruct (split_no_dot s) as [H1 H2]. split; intro H.
  - rewrite (H1 H). reflexivity.
  - specialize (H2 H). unfold index_from_end, index.
    destruct (Nat.leb_spec 2 (List.length (split "." s))) as [_|Hlt]; [|lia].
    simpl andb.
    destruct (nth_error (split "." s) (List.length (split "." s) - 2)) as [seg|] eqn:E.
    + exists seg. reflexivity.
    + apply nth_error_None in E. lia.
Qed.

Section Session.

Variable fails : oracle.
Variable OUTPUT_DIR : string.
Variable jsonInstruction : dict.

Let common_prefix := find_common_prefix (keys jsonInstruction).
Let testItem := remove_common_prefix jsonInstruction common_prefix.
Let stop := TracingStop (path_join OUTPUT_DIR "trace.zip").
Let loop := run_instructions fails testItem session_setup.
Let session := run (testExecution fails OUTPUT_DIR jsonInstruction).

(** The ways a run can end. *)
Lemma testExecution_cases :
  (no_dot common_prefix = true /\ session = ([], Raise IndexError)) \/
  (no_dot common_prefix = false /\
   ((exists k c, nth_error session_setup k = Some c /\
                 session = ((firstn (S k) session_setup ++ [PlaywrightExit])%list,
                            Raise (PlaywrightError c))) \/
    (exists e, snd loop = Raise e /\
               session = ((fst loop ++ [PlaywrightExit])%list, Raise e)) \/
    (snd loop = Ok tt /\
     session = ((fst loop ++ [stop; PlaywrightExit])%list,
                Raise (PlaywrightError stop))) \/
    (snd loop = Ok tt /\
     session = ((fst loop ++ [stop; BrowserClose; PlaywrightExit])%list,
                Raise (PlaywrightError BrowserClose))) \/
    (snd loop = Ok tt /\
     session = ((fst loop ++ [stop; BrowserClose; PlaywrightExit])%list, Ok true)))).
Proof.
  unfold session, run, testExecution. cbv zeta.
  fold common_prefix. fold testItem. fold stop.
  destruct (index_from_end_split common_prefix []) as [Hnd Hd].
  destruct (no_dot common_prefix).
  { left. split; [reflexivity|]. unfold bind. rewrite (Hnd eq_refl). reflexivity. }
  right. split; [reflexivity|].
  destruct (Hd eq_refl) as [seg E].
  unfold with_playwright, bind, playwright, ret. rewrite E. simpl app.
  destruct (fails [] Launch).
  { left. exists 0, Launch. split; reflexivity. }
  destruct (fails [Launch] NewContext).
  { left. exists 1, NewContext. split; reflexivity. }
  destruct (fails [Launch; NewContext] NewPage).
  { left. exists 2, NewPage. split; reflexivity. }
  destruct (fails [Launch; NewContext; NewPage] TracingStart).
  { left. exists 3, TracingStart. split; reflexivity. }
  right. fold session_setup. fold loop.
  destruct loop as [hl [[]|e]]; cbv beta iota.
  - destruct (fails hl stop).
    { right. left. split; [reflexivity|]. simpl. rewrite <- app_assoc. reflexivity. }
    destruct (fails (hl ++ [stop])%list BrowserClose).
    { right. right. left. split; [reflexivity|]. simpl.
      rewrite <- !app_assoc. reflexivity. }
    right. right. right. split; [reflexivity|]. simpl.
    rewrite <- !app_assoc. reflexivity.
  - left. exists e. split; reflexivity.
Qed.

End Session.

Lemma run_instructions_extends (fails : oracle) (testItem : dict) (h : history) :
  exists new, fst (run_instructions fails testItem h) = (h ++ new)%list /\
              forallb loop_call new = true.
Proof.
  destruct (tame_run_instructions fails testItem h) as (new & E & F & _).
  exists new. split; assumption.
Qed.

(** X5. Whether a session is opened at all is decided by the common
    prefix: without a dot in it the run raises [IndexError] before any
    call; with a dot the browser is launched, and whatever happens next,
    the last call is the exit of the Playwright manager. *)
Theorem session_opened_iff_prefix_has_dot (fails : oracle) (OUTPUT_DIR : string)
        (jsonInstruction : dict) :
  (no_dot (find_common_prefix (keys jsonInstruction)) = true ->
   run (testExecution fails OUTPUT_DIR jsonInstruction) = ([], Raise IndexError)) /\
  (no_dot (find_common_prefix (keys jsonInstruction)) = false ->
   exists mid,
     fst (run (testExecution fails OUTPUT_DIR jsonInstruction))
     = (Launch :: mid ++ [PlaywrightExit])%list).
Proof.
  destruct (testExecution_cases fails OUTPUT_DIR jsonInstruction) as [[Hd E] | [Hd C]];
    rewrite Hd; (split; [|intros Hf]); try discriminate.
  - intros _. exact E.
  - destruct (run_instructions_extends fails
                (remove_common_prefix jsonInstruction
                   (find_common_prefix (keys jsonInstruction))) session_setup)
      as (new & En & _).
    destruct C as [(k & c & Hk & ->) | [(e & _ & ->) | [(_ & ->) | [(_ & ->) | (_ & ->)]]]];
      cbn [fst]; try rewrite En.
    + exists (firstn k (tl session_setup)). reflexivity.
    + exists (tl session_setup ++ new)%list. reflexivity.
    + eexists (tl session_setup ++ new ++ [_])%list. simpl.
      rewrite <- !app_assoc. reflexivity.
    + eexists (tl session_setup ++ new ++ [_; _])%list. simpl.
      rewrite <- !app_assoc. reflexivity.
    + eexists (tl session_setup ++ new ++ [_; _])%list. simpl.
      rewrite <- !app_assoc. reflexivity.
Qed.

(** Keys [url1], [url2]: the common prefix [url] has no dot. *)
Lemma session_opened_iff_prefix_has_dot_witness :
  run (testExecution (fun _ _ => false) "out" [("url1", "http://a"); ("url2", "http://b")])
  = ([], Raise IndexError).
Proof.
  apply (proj1 (session_opened_iff_prefix_has_dot (fun _ _ => false) "out"
                  [("url1", "http://a"); ("url2", "http://b")])).
  reflexivity.
Defined.

Lemma in_firstn {A} (n : nat) (l : list A) (a : A) : In a (firstn n l) -> In a l.
Proof.
  intro H. rewrite <- (firstn_skipn n l). apply in_or_app. left. exact H.
Qed.

Lemma not_page_action_setup (c : call) :
  In c session_setup -> is_page_action c = false.
Proof.
  intros [<- | [<- | [<- | [<- | []]]]]; reflexivity.
Qed.

(** X6. A mapping with a single instruction never acts on the page: the
    common prefix is the whole key, the stripped key is empty and belongs
    to no category, so no navigate, fill or click is issued, whatever the
    key and the value are. *)
Theorem single_instruction_never_dispatched (fails : oracle) (OUTPUT_DIR key value : string) :
  forall c, In c (fst (run (testExecution fails OUTPUT_DIR [(key, value)]))) ->
            is_page_action c = false.
Proof.
  intros c Hin.
  pose proof (testExecution_cases fails OUTPUT_DIR [(key, value)]) as C.
  cbn [keys map fst] in C. rewrite find_common_prefix_single in C.
  unfold remove_common_prefix in C. cbn [fold_left fst snd dict_set] in C.
  rewrite replace_whole in C.
  assert (Hloop : run_instructions fails [("", value)] session_setup = (session_setup, Ok tt))
    by reflexivity.
  rewrite Hloop in C. cbn [fst snd] in C.
  destruct C as [[_ E] | [_ [(k & c0 & Hk & E) | [(e & He & _) | [(_ & E) | [(_ & E) | (_ & E)]]]]]];
    try discriminate He; rewrite E in Hin; cbn [fst] in Hin.
  - destruct Hin.
  - apply in_app_or in Hin. destruct Hin as [Hin | [<- | []]]; [|reflexivity].
    apply not_page_action_setup. exact (in_firstn _ _ _ Hin).
  - apply in_app_or in Hin. destruct Hin as [Hin | [<- | [<- | []]]]; try reflexivity.
    apply not_page_action_setup. exact Hin.
  - apply in_app_or in Hin. destruct Hin as [Hin | [<- | [<- | [<- | []]]]]; try reflexivity.
    apply not_page_action_setup. exact Hin.
  - apply in_app_or in Hin. destruct Hin as [Hin | [<- | [<- | [<- | []]]]]; try reflexivity.
    apply not_page_action_setup. exact Hin.
Qed.

(** X7. Running a sequence of instructions is running its first part and,
    if that part raised nothing, the rest from the history reached; an
    exception in the first part ends the run with the calls issued so far
    and none of the later instructions is dispatched. *)
Theorem run_instructions_app (fails : oracle) (first rest : dict) (h : history) :
  run_instructions fails (first ++ rest)%list h
  = match run_instructions fails first h with
    | (h', Ok _) => run_instructions fails rest h'
    | (h', Raise e) => (h', Raise e)
    end.
Proof.
  revert h. induction first as [|[k v] first IH]; intro h; simpl; [reflexivity|].
  unfold bind. destruct (dispatch_instruction fails k v h) as [h1 [[]|e]];
    [apply IH | reflexivity].
Qed.

Lemma dispatch_other (fails : oracle) (key value : string) (h : history) :
  startswith key "url" = false -> startswith key "input" = false ->
  startswith key "textarea" = false -> startswith key "button" = false ->
  dispatch_instruction fails key value h = (h, Ok tt).
Proof.
  intros Hu Hi Ht Hb. unfold dispatch_instruction. rewrite Hu, Hi, Ht, Hb. reflexivity.
Qed.

Lemma dispatch_navigation (fails : oracle) (key value : string) (h h' : history) :
  dispatch_instruction fails key value h = (h', Ok tt) ->
  exists new, h' = (h ++ new)%list /\
              filter is_goto new = if startswith key "url" then [Goto value] else [].
Proof.
  destruct (startswith key "url") eqn:Hu.
  { rewrite dispatch_url by assumption. destruct (fails h _); [discriminate|].
    intro E. injection E as <-. exists [Goto value]. split; reflexivity. }
  destruct (startswith key "input") eqn:Hi.
  { rewrite (dispatch_field fails "input") by (auto; left; reflexivity).
    destruct (nth_error (split "." key) 1) as [seg1|]; [|discriminate].
    destruct (startswith seg1 "placeholder").
    - destruct (nth_error (split "." key) 2) as [seg2|]; [|discriminate].
      cbv zeta. destruct (fails h _); [discriminate|].
      intro E. injection E as <-. eexists. split; reflexivity.
    - intro E. injection E as <-. eexists. split; reflexivity. }
  destruct (startswith key "textarea") eqn:Ht.
  { rewrite (dispatch_field fails "textarea") by (auto; right; reflexivity).
    destruct (nth_error (split "." key) 1) as [seg1|]; [|discriminate].
    destruct (startswith seg1 "placeholder").
    - destruct (nth_error (split "." key) 2) as [seg2|]; [|discriminate].
      cbv zeta. destruct (fails h _); [discriminate|].
      intro E. injection E as <-. eexists. split; reflexivity.
    - intro E. injection E as <-. eexists. split; reflexivity. }
  destruct (startswith key "button") eqn:Hb.
  { rewrite dispatch_button by assumption. cbv zeta.
    destruct (fails h _); [discriminate|].
    intro E. injection E as <-. eexists. split; reflexivity. }
  rewrite dispatch_other by assumption.
  intro E. injection E as <-. exists []. rewrite app_nil_r. split; reflexivity.
Qed.

Lemma run_instructions_navigation (fails : oracle) (testItem : dict) (h h' : history) :
  run_instructions fails testItem h = (h', Ok tt) ->
  exists new, h' = (h ++ new)%list /\
              filter is_goto new
              = map (fun kv => Goto (snd kv))
                    (filter (fun kv => startswith (fst kv) "url") testItem).
Proof.
  revert h. induction testItem as [|[k v] rest IH]; intro h; simpl.
  - intro E. injection E as <-. exists []. rewrite app_nil_r. split; reflexivity.
  - unfold bind. destruct (dispatch_instruction fails k v h) as [h1 [[]|e]] eqn:Ed;
      [|discriminate].
    intro Er. apply dispatch_navigation in Ed. destruct Ed as (n1 & -> & F1).
    apply IH in Er. destruct Er as (n2 & -> & F2).
    exists (n1 ++ n2)%list. rewrite app_assoc. split; [reflexivity|].
    rewrite filter_app, F1, F2. destruct (startswith k "url"); reflexivity.
Qed.

(** X8. A run that returns has navigated exactly to the values of the
    instructions of the [url] category of the stripped mapping, once
    each and in the order of that mapping. *)
Theorem successful_run_navigations (fails : oracle) (OUTPUT_DIR : string)
        (jsonInstruction : dict) :
  snd (run (testExecution fails OUTPUT_DIR jsonInstruction)) = Ok true ->
  filter is_goto (fst (run (testExecution fails OUTPUT_DIR jsonInstruction)))
  = map (fun kv => Goto (snd kv))
        (filter (fun kv => startswith (fst kv) "url")
                (remove_common_prefix jsonInstruction
                   (find_common_prefix (keys jsonInstruction)))).
Proof.
  destruct (testExecution_cases fails OUTPUT_DIR jsonInstruction)
    as [[_ E] | [_ [(k & c0 & _ & E) | [(e & _ & E) | [(_ & E) | [(_ & E) | (Hl & E)]]]]]];
    rewrite E; cbn [fst snd]; try discriminate.
  intros _.
  destruct (run_instructions fails _ session_setup) as [hl r] eqn:El.
  cbn [fst snd] in *. subst r.
  apply run_instructions_navigation in El. destruct El as (new & -> & F).
  rewrite !filter_app, F. simpl. rewrite app_nil_r. reflexivity.
Qed.

Lemma successful_run_navigations_witness :
  filter is_goto
    (fst (run (testExecution (fun _ _ => false) "out"
                 [("run.url.a", "http://a"); ("run.button.go", "go"); ("run.url.b", "http://b")])))
  = [Goto "http://a"; Goto "http://b"].
Proof.
  apply (successful_run_navigations (fun _ _ => false) "out"
           [("run.url.a", "http://a"); ("run.button.go", "go"); ("run.url.b", "http://b")]).
  reflexivity.
Defined.

Lemma single_instruction_never_dispatched_witness :
  In Launch (fst (run (testExecution (fun _ _ => false) "out" [("run.url", "http://x")]))) /\
  is_page_action Launch = false.
Proof.
  split; [left; reflexivity|].
  apply (single_instruction_never_dispatched (fun _ _ => false) "out" "run.url" "http://x").
  left. reflexivity.
Defined.

(** * Further properties of the scraper *)

Section ScraperRest.

Variable element : Type.
Variable locator_all : string -> option (list element).
Variable sub_locator : element -> string -> option (list element).
Variable get_attribute : element -> string -> option (option string).
Variable inner_text : element -> option string.
Variable split_words : string -> list string.

Lemma label_candidates_set_xpath (data : record) (x : pyval) :
  label_candidates (dict_set data "xpath" x) = label_candidates data.
Proof.
  unfold label_candidates, shown.
  rewrite !dict_get_set_other by discriminate. reflexivity.
Qed.

(** X9. The selector of a label record is the first of its two
    candidates, the id selector and then the text selector, that the page
    answers with exactly one element; a record for which neither is
    answered so has no [xpath] entry. *)
Theorem label_record_first (label : element) (d : record) :
  label_record element locator_all get_attribute inner_text label = Some d ->
  dict_get d "xpath"
  = option_map PStr (find (matches_one locator_all) (label_candidates d)).
Proof.
  unfold label_record, obind.
  destruct (inner_text label) as [text|]; [|discriminate].
  destruct (get_attribute label "for") as [a_for|]; [|discriminate].
  destruct (get_attribute label "id") as [a_id|]; [|discriminate].
  cbv zeta.
  set (data := [("text", PStr (py_or (Some text) "")); ("for", PStr (py_or a_for ""));
                ("id", PStr (py_or a_id ""))]).
  assert (Hd : d = match find (matches_one locator_all) (label_candidates data) with
                   | Some xpath => dict_set data "xpath" (PStr xpath)
                   | None => data
                   end -> dict_get d "xpath"
                          = option_map PStr (find (matches_one locator_all) (label_candidates d))).
  { intros ->. destruct (find _ (label_candidates data)) as [x|] eqn:Ef.
    - rewrite label_candidates_set_xpath, Ef, dict_get_set_same. reflexivity.
    - rewrite Ef. reflexivity. }
  intro H. apply Hd. clear Hd. revert H.
  unfold label_candidates, shown, matches_one.
  cbn [label_xpath_loop label_xpath String.eqb Ascii.eqb Bool.eqb obind find dict_get data fmt].
  unfold obind.
  destruct (locator_all ("//label[@id='" ++ py_or a_id "" ++ "']")) as [e1|]; [|discriminate].
  destruct (Nat.eqb (List.length e1) 1); [intro H; injection H as <-; reflexivity|].
  destruct (locator_all ("//label[contains(text(),'" ++ py_or (Some text) "" ++ "')]"))
    as [e2|]; [|discriminate].
  destruct (Nat.eqb (List.length e2) 1); intro H; injection H as <-; reflexivity.
Qed.

(** X10. A div that has neither a non-empty [data-testid] nor a non-empty
    [id] leaves no record in the result, although the page query selects
    it for its [class] or [role]. *)
Theorem div_without_identifier_dropped (div : element) :
  (forall s, get_attribute div "data-testid" = Some (Some s) -> s = "") ->
  (forall s, get_attribute div "id" = Some (Some s) -> s = "") ->
  div_records element locator_all get_attribute inner_text split_words div = [].
Proof.
  intros Ht Hi. unfold div_records, obind.
  destruct (get_attribute div "data-testid") as [a_testid|]; [|reflexivity].
  destruct (get_attribute div "id") as [a_id|]; [|reflexivity].
  destruct (get_attribute div "class") as [a_class|]; [|reflexivity].
  destruct (get_attribute div "role") as [a_role|]; [|reflexivity].
  destruct (inner_text div) as [text|]; [|reflexivity].
  assert (Et : py_or a_testid "" = "").
  { destruct a_testid as [s|]; [|reflexivity]. rewrite (Ht s eq_refl). reflexivity. }
  assert (Ei : py_or a_id "" = "").
  { destruct a_id as [s|]; [|reflexivity]. rewrite (Hi s eq_refl). reflexivity. }
  rewrite Et, Ei. reflexivity.
Qed.


(** X12. [scrape_elements] returns exactly when the eight page-level
    queries return; no failure while reading an element, its attributes,
    its text or the elements under it makes the scrape raise. *)
Theorem scrape_elements_returns_iff :
  scrape_elements element locator_all sub_locator get_attribute inner_text split_words <> None
  <-> forall q, In q page_queries -> locator_all q <> None.
Proof.
  unfold scrape_elements, _get_textareas, _get_inputs, _get_buttons, _get_labels,
    _get_divs, _get_selects, _get_links, _get_forms, page_queries, obind.
  split.
  - intros H q Hq Eq. apply H. clear H.
    destruct Hq as [<- | [<- | [<- | [<- | [<- | [<- | [<- | [<- | []]]]]]]]];
      rewrite ?Eq;
      repeat match goal with
             | |- context [match locator_all ?sel with _ => _ end] =>
                 destruct (locator_all sel); try reflexivity
             end;
      reflexivity.
  - intros H.
    repeat match goal with
           | |- context [match locator_all ?sel with _ => _ end] =>
               let E := fresh "E" in
               destruct (locator_all sel) eqn:E;
               [| exfalso; apply (H sel); [simpl; tauto | exact E]]
           end.
    discriminate.
Qed.

End ScraperRest.

Lemma div_without_identifier_dropped_witness :
  div_records node (page_of []) node_attribute node_inner_text (fun s => [s]) plain_div = [].
Proof.
  apply div_without_identifier_dropped; intros s H; discriminate H.
Defined.

Lemma label_record_first_witness :
  exists d,
    label_record node label_page node_attribute node_inner_text name_label = Some d /\
    dict_get d "xpath" = Some (PStr "//label[@id='lbl']").
Proof.
  eexists. split; [reflexivity|].
  apply (label_record_first node label_page node_attribute node_inner_text name_label).
  reflexivity.
Defined.


(** * The action handler *)

Section EngineProperties.

Variable fails : oracle.
Variable OUTPUT_DIR : string.
Variable R : Type.
Variable process_jira_steps : steps.
Variable _handle_update : option string -> E R.
Variable _handle_list : E R.
Variable _handle_debug : E R.
Variable prompt_dict : pydict (option string).

Let action_result_of :=
  process_action fails OUTPUT_DIR R process_jira_steps
                 _handle_update _handle_list _handle_debug prompt_dict.

Lemma process_action_returns (h : history) :
  exists r, snd (action_result_of h) = Returned r.
Proof.
  unfold action_result_of, process_action, ecatch.
  match goal with
  | |- context [match ?m h with _ => _ end] => destruct (m h) as [h' [r|e]]
  end.
  - exists r. reflexivity.
  - eexists. reflexivity.
Qed.

(** X13. [runEngine] always answers [("Prompt Processing -- completed",
    True)]: a missing or unknown action, a handler that raises and a test
    run that fails all end as a completed prompt, and the calls issued
    are those of [process_action]. *)
Theorem runEngine_always_completed (h : history) :
  runEngine fails OUTPUT_DIR R process_jira_steps
            _handle_update _handle_list _handle_debug prompt_dict h
  = (fst (action_result_of h), Returned (Completed, true)).
Proof.
  unfold runEngine, ecatch, ebind. fold action_result_of.
  destruct (process_action_returns h) as [r Hr].
  destruct (action_result_of h) as [h' o]. simpl in Hr. subst o. reflexivity.
Qed.

Lemma member_non_empty (x : string) (l : list string) :
  member x l = true -> forallb non_empty l = true -> non_empty x = true.
Proof.
  unfold member. intros Hm Hl. apply existsb_exists in Hm.
  destruct Hm as (y & Hin & E). apply String.eqb_eq in E. subst y.
  rewrite forallb_forall in Hl. apply Hl, Hin.
Qed.

(** X14. For the actions [run], [execution] and [execute], in any
    letter case, with steps that are a dict: the browser calls are those
    of [testExecution] on the steps; when the test run raises,
    [process_action] returns an error status holding the exception, and
    otherwise the steps. *)
Theorem process_action_run (a : string) (jsonInstruction : dict) (h : history) :
  get_or prompt_dict "action" "" = Some a ->
  member (lower a) ["run"; "execution"; "execute"] = true ->
  process_jira_steps = StepsDict jsonInstruction ->
  action_result_of h
  = (fst (testExecution fails OUTPUT_DIR jsonInstruction h),
     Returned
       match snd (testExecution fails OUTPUT_DIR jsonInstruction h) with
       | Ok _ => Handled (RunSteps (StepsDict jsonInstruction))
       | Raise e => ErrorStatus (TestError e)
       end).
Proof.
  intros Ha Hm Hs.
  unfold action_result_of, process_action, ecatch. rewrite Ha. cbv zeta.
  rewrite (member_non_empty _ _ Hm eq_refl), Hm. cbn [negb].
  unfold _handle_run. rewrite Hs.
  cbv beta iota zeta delta [ebind call_test eret].
  destruct (testExecution fails OUTPUT_DIR jsonInstruction h) as [h' [b|e]]; reflexivity.
Qed.

(** X15. For the same actions with steps that are not a dict: a false
    value gives the error status "No test steps found", any other value
    is returned as it is; in both cases no browser call is issued. *)
Theorem process_action_run_without_dict (a : string) (h : history) :
  get_or prompt_dict "action" "" = Some a ->
  member (lower a) ["run"; "execution"; "execute"] = true ->
  (process_jira_steps = NoSteps ->
   action_result_of h = (h, Returned (ErrorStatus (ValueError "No test steps found")))) /\
  (process_jira_steps = StepsOther ->
   action_result_of h = (h, Returned (Handled (RunSteps StepsOther)))).
Proof.
  intros Ha Hm.
  unfold action_result_of, process_action, ecatch. rewrite Ha. cbv zeta.
  rewrite (member_non_empty _ _ Hm eq_refl), Hm. cbn [negb].
  unfold _handle_run.
  split; intros ->; reflexivity.
Qed.

(** X16. The action [raise], in any letter case, always ends in an error
    status: [_handle_raise] is called without its [environment]
    argument, which is a [TypeError]; no browser call is issued. *)
Theorem process_action_raise (a : string) (h : history) :
  get_or prompt_dict "action" "" = Some a ->
  lower a = "raise" ->
  exists message,
    action_result_of h = (h, Returned (ErrorStatus (TypeError message))).
Proof.
  intros Ha Hl.
  unfold action_result_of, process_action, ecatch. rewrite Ha. cbv zeta.
  rewrite Hl. eexists. reflexivity.
Qed.

End EngineProperties.

Lemma process_action_run_witness :
  process_action (fun _ c => match c with Click _ => true | _ => false end) "out" unit
    (StepsDict [("run.url", "http://x"); ("run.button.go", "go")])
    (fun _ => eret tt) (eret tt) (eret tt) [("action", Some "Run")] []
  = ([Launch; NewContext; NewPage; TracingStart; Goto "http://x";
      Click "button[name='go']"; PlaywrightExit],
     Returned (ErrorStatus (TestError (PlaywrightError (Click "button[name='go']"))))).
Proof.
  apply (process_action_run (fun _ c => match c with Click _ => true | _ => false end) "out" unit
           (StepsDict [("run.url", "http://x"); ("run.button.go", "go")])
           (fun _ => eret tt) (eret tt) (eret tt) [("action", Some "Run")]
           "Run" [("run.url", "http://x"); ("run.button.go", "go")] []);
    reflexivity.
Defined.

Lemma process_action_run_without_dict_witness :
  process_action (fun _ _ => false) "out" unit NoSteps
    (fun _ => eret tt) (eret tt) (eret tt) [("action", Some "execute")] []
  = ([], Returned (ErrorStatus (ValueError "No test steps found"))).
Proof.
  apply (proj1 (process_action_run_without_dict (fun _ _ => false) "out" unit NoSteps
                  (fun _ => eret tt) (eret tt) (eret tt) [("action", Some "execute")]
                  "execute" [] eq_refl eq_refl)).
  reflexivity.
Defined.

Lemma process_action_raise_witness :
  exists message,
    process_action (fun _ _ => false) "out" unit NoSteps
      (fun _ => eret tt) (eret tt) (eret tt) [("action", Some "RAISE")] []
    = ([], Returned (ErrorStatus (TypeError message))).
Proof.
  apply (process_action_raise (fun _ _ => false) "out" unit NoSteps
           (fun _ => eret tt) (eret tt) (eret tt) [("action", Some "RAISE")] "RAISE" []);
    reflexivity.
Defined.

(** * [get_sheet_name] *)

Lemma split_scan_length_pos (sep s : string) (skip : nat) :
  1 <= List.length (split_scan sep s skip).
Proof.
  revert skip. induction s as [|c s IH]; intro skip; cbn [split_scan]; [simpl; lia|].
  destruct skip as [|k]; [|apply IH].
  destruct (String.prefix sep (String c s)); [simpl; lia|].
  destruct (split_scan sep s 0); simpl; lia.
Qed.

Lemma split_on_contains (sep s : string) :
  sep <> "" -> contains s sep = true -> 2 <= List.length (split_on sep s).
Proof.
  intro Hsep. unfold split_on. induction s as [|c s IH]; intro H.
  - exfalso. apply Hsep. destruct sep; [reflexivity | discriminate H].
  - cbn [split_scan]. cbn [contains] in H.
    destruct (String.prefix sep (String c s)).
    + pose proof (split_scan_length_pos sep s (String.length sep - 1)). simpl. lia.
    + specialize (IH H). revert IH. destruct (split_scan sep s 0); simpl; lia.
Qed.

(** A segment of [s.split(c)] holds no [c] and only characters of [s]. *)
Lemma split_segment (c : ascii) (s seg : string) :
  In seg (split c s) ->
  has_char c seg = false /\
  forall ch, has_char ch seg = true -> has_char ch s = true.
Proof.
  revert seg. induction s as [|a s IH]; intros seg; simpl.
  - intros [<- | []]. split; [reflexivity | discriminate].
  - destruct (Ascii.eqb a c) eqn:Eac.
    + intros [<- | Hin].
      * split; [reflexivity | discriminate].
      * destruct (IH _ Hin) as [H1 H2]. split; [exact H1|].
        intros ch Hch. rewrite (H2 ch Hch). apply orb_true_r.
    + pose proof (split_length_pos c s) as Hpos.
      destruct (split c s) as [|seg0 rest]; [simpl in Hpos; lia|].
      intros [<- | Hin].
      * destruct (IH seg0 (or_introl eq_refl)) as [H1 H2]. split.
        -- simpl. rewrite Eac, H1. reflexivity.
        -- intros ch. simpl. destruct (Ascii.eqb a ch); [reflexivity|].
           simpl. apply H2.
      * destruct (IH seg (or_intror Hin)) as [H1 H2]. split; [exact H1|].
        intros ch Hch. rewrite (H2 ch Hch). apply orb_true_r.
Qed.

(** X17. [get_sheet_name] returns a record exactly when the URL contains
    both [docs.google.com/spreadsheets] and [/d/]; the sheet id of the
    record has no slash, and a sheet name, when there is one, has neither
    a slash nor an equals sign. *)
Theorem get_sheet_name_result (url : string) :
  (get_sheet_name url = None <->
   contains url "docs.google.com/spreadsheets" = false \/ contains url "/d/" = false) /\
  (forall info, get_sheet_name url = Some info ->
     has_char "/" (sheet_id info) = false /\
     forall name, sheet_name info = Some name ->
       has_char "/" name = false /\ has_char "=" name = false).
Proof.
  unfold get_sheet_name.
  destruct (contains url "docs.google.com/spreadsheets"); cbn [negb].
  2:{ split; [tauto | discriminate]. }
  destruct (contains url "/d/") eqn:Hd.
  2:{ split; [tauto | discriminate]. }
  pose proof (split_on_contains "/d/" url ltac:(discriminate) Hd) as Hlen.
  destruct (nth_error (split_on "/d/" url) 1) as [tail|] eqn:Et.
  2:{ apply nth_error_None in Et. lia. }
  pose proof (split_length_pos "/" tail) as Hpos. cbv zeta.
  destruct (nth_error (split "/" tail) 0) as [id|] eqn:Eid.
  2:{ apply nth_error_None in Eid. lia. }
  split.
  - split; [intro H; discriminate H | intros [H | H]; discriminate H].
  - intros info H.
    assert (E := f_equal (fun o => match o with Some i => i | None => info end) H).
    cbv beta iota in E. rewrite <- E. clear H E. unfold sheet_id, sheet_name. split.
    + apply (split_segment "/" tail id). exact (nth_error_In _ _ Eid).
    + intros name.
      destruct (nth_error (split "/" tail) 1) as [part1|] eqn:E1;
        [|intro H; discriminate H].
      destruct (Nat.ltb 1 (List.length (split "/" tail)) && contains part1 "edit");
        [|intro H; discriminate H].
      destruct (Nat.ltb 1 (List.length (split "=" part1))); [|intro H; discriminate H].
      intro En. apply nth_error_In in En. apply nth_error_In in E1.
      destruct (split_segment "=" part1 name En) as [Heq Hsub].
      destruct (split_segment "/" tail part1 E1) as [Hslash _].
      split; [|exact Heq].
      destruct (has_char "/" name) eqn:Hn; [|reflexivity].
      rewrite (Hsub _ Hn) in Hslash. discriminate Hslash.
Qed.

Lemma get_sheet_name_result_witness :
  get_sheet_name "https://docs.google.com/spreadsheets/d/1AbC/edit#gid=0"
  = Some (SheetInfo "1AbC" (Some "0")) /\
  has_char "/" "1AbC" = false.
Proof.
  split; [reflexivity|].
  exact (proj1 (proj2 (get_sheet_name_result
                         "https://docs.google.com/spreadsheets/d/1AbC/edit#gid=0")
                  (SheetInfo "1AbC" (Some "0")) eq_refl)).
Defined.

(** * [TextCipher] *)

Lemma slice_to_append (a b : string) : slice_to (a ++ b) (String.length a) = a.
Proof.
  unfold slice_to. induction a as [|c a IH]; simpl.
  - destruct b; reflexivity.
  - rewrite IH. reflexivity.
Qed.

Lemma slice_from_append (a b : string) : slice_from (a ++ b) (String.length a) = b.
Proof.
  induction a as [|c a IH]; simpl; [destruct b; reflexivity | exact IH].
Qed.

Section TextCipherProperties.

Variable key : Type.
Variable derive_key : string -> string -> key.
Variable nonce : Type.
Variable fernet_encrypt : key -> nonce -> string -> string.
Variable fernet_decrypt : key -> string -> option string.
Variable b64encode : string -> string.
Variable b64decode : string -> option string.
Variable encode : string -> string.
Variable decode : string -> option string.

Hypothesis fernet_round_trip :
  forall k n m, fernet_decrypt k (fernet_encrypt k n m) = Some m.
Hypothesis b64_round_trip : forall b, b64decode (b64encode b) = Some b.
Hypothesis b64_empty : forall b, b64encode b = "" -> b = "".
Hypothesis text_round_trip : forall s, decode (encode s) = Some s.

(** X18. With a salt of 16 bytes, what [encrypt] makes of a non-empty
    text under a non-empty password, [decrypt] under the same password
    turns back into the text, on any cipher object: the salt is read from
    the cipher text, and it replaces the salt of the decrypting object.
    (The library primitives are taken with their round trips.) *)
Theorem decrypt_encrypt (salt other_salt : string) (n : nonce) (text password : string) :
  String.length salt = 16 ->
  text <> "" -> password <> "" ->
  exists cipher_text,
    encrypt key derive_key nonce fernet_encrypt b64encode encode salt n text password
    = Some cipher_text /\
    decrypt key derive_key fernet_decrypt b64decode encode decode
            other_salt cipher_text password
    = (Some text, salt).
Proof.
  intros Hsalt Ht Hp.
  assert (Nt : non_empty text = true) by (destruct text; [contradiction | reflexivity]).
  assert (Np : non_empty password = true) by (destruct password; [contradiction | reflexivity]).
  unfold encrypt. rewrite Nt, Np. cbn [negb orb]. cbv zeta.
  eexists. split; [reflexivity|].
  unfold decrypt. rewrite Np.
  match goal with
  | |- context [non_empty (b64encode ?b)] =>
      assert (Nc : non_empty (b64encode b) = true)
  end.
  { match goal with
    | |- non_empty (b64encode ?b) = true =>
        destruct (b64encode b) eqn:E; [|reflexivity];
        apply b64_empty in E; destruct salt; [discriminate Hsalt | discriminate E]
    end. }
  rewrite Nc. cbn [negb orb]. rewrite b64_round_trip. cbv zeta.
  rewrite <- Hsalt, slice_to_append, slice_from_append, fernet_round_trip.
  rewrite text_round_trip. reflexivity.
Qed.

End TextCipherProperties.

Lemma decrypt_encrypt_witness :
  exists cipher_text,
    encrypt string (fun s p => s ++ p) unit (fun _ _ m => m) (fun b => b) (fun s => s)
            "0123456789abcdef" tt "secret" "me@Linux"
    = Some cipher_text /\
    decrypt string (fun s p => s ++ p) (fun _ c => Some c) (fun b => Some b) (fun s => s)
            (fun s => Some s) "another salt 16b" cipher_text "me@Linux"
    = (Some "secret", "0123456789abcdef").
Proof.
  apply (decrypt_encrypt string (fun s p => s ++ p) unit (fun _ _ m => m)
           (fun _ c => Some c) (fun b => b) (fun b => Some b) (fun s => s) (fun s => Some s));
    first [reflexivity | discriminate | intros; reflexivity | intros b E; exact E].
Defined.

(** * [GeminiClient.generate_chat_response] *)

Section ChatProperties.

Variable now : string.
Variable start_chat : option string.
Variable reply : Type.
Variable send_message : list string -> string -> reply + string.
Variable text_of : reply -> string + string.
Variable unbound_response : string.

Lemma chat_loop_app (first rest : list chat_message) (sent : list string)
      (last_prompt : string) (response : option reply) :
  chat_loop reply send_message (first ++ rest)%list sent last_prompt response
  = match chat_loop reply send_message first sent last_prompt response with
    | inl (sent', last_prompt', response') =>
        chat_loop reply send_message rest sent' last_prompt' response'
    | inr e => inr e
    end.
Proof.
  revert sent last_prompt response.
  induction first as [|m first IH]; intros sent last_prompt response; simpl; [reflexivity|].
  destruct (String.eqb (role m) "user"); [|apply IH].
  destruct (send_message sent (content m)); [apply IH | reflexivity].
Qed.

Lemma chat_loop_no_user (messages : list chat_message) (sent : list string)
      (last_prompt : string) (response : option reply) :
  (forall m, In m messages -> role m <> "user") ->
  chat_loop reply send_message messages sent last_prompt response
  = inl (sent, last_prompt, response).
Proof.
  induction messages as [|m messages IH]; intro H; simpl; [reflexivity|].
  destruct (String.eqb_spec (role m) "user") as [E|_].
  - exfalso. apply (H m); [left; reflexivity | exact E].
  - apply IH. intros m' Hin. apply H. right. exact Hin.
Qed.

(** X19. A conversation without any message of role [user], the empty
    one included, gives an error response whatever the model does:
    nothing is sent, the status is [error], there is no content, and the
    prompt reported is the content of the last message (empty for the
    empty conversation). *)
Theorem chat_without_user_message (messages : list chat_message) :
  (forall m, In m messages -> role m <> "user") ->
  let r := generate_chat_response now start_chat reply send_message text_of
             unbound_response messages in
  rt_status r = "error" /\ rt_content r = None /\ rt_error r <> None /\
  rt_prompt r = last_content messages.
Proof.
  intros H. unfold generate_chat_response. cbv zeta.
  rewrite (chat_loop_no_user messages [] "" None H).
  destruct start_chat; simpl; repeat split; discriminate.
Qed.

(** X20. When the chat starts and every message sent is answered, the
    response reports the last [user] message as prompt and the text of
    the answer to it as content; the answers to the earlier messages are
    not used, and messages of other roles after it change nothing. *)
Theorem chat_answers_last_user_message
        (before after : list chat_message) (prompt text : string)
        (sent : list string) (last_prompt : string) (response : option reply) (r : reply) :
  start_chat = None ->
  chat_loop reply send_message before [] "" None = inl (sent, last_prompt, response) ->
  send_message sent prompt = inl r ->
  text_of r = inl text ->
  (forall m, In m after -> role m <> "user") ->
  generate_chat_response now start_chat reply send_message text_of unbound_response
    (before ++ ChatMessage "user" prompt :: after)%list
  = ResponseTemplate now "gemini-pro" "success" prompt "generate_content" (Some text) None.
Proof.
  intros Hs Hb Hsend Ht Ha.
  unfold generate_chat_response. cbv zeta. rewrite Hs, chat_loop_app, Hb.
  cbn [chat_loop role content String.eqb Ascii.eqb Bool.eqb]. rewrite Hsend.
  rewrite (chat_loop_no_user after _ _ _ Ha), Ht. reflexivity.
Qed.

End ChatProperties.

Lemma chat_without_user_message_witness :
  rt_status (generate_chat_response "t" None string (fun _ c => inl c) (fun r => inl r) "unbound"
               [ChatMessage "system" "be brief"]) = "error".
Proof.
  apply (chat_without_user_message "t" None string (fun _ c => inl c) (fun r => inl r) "unbound"
           [ChatMessage "system" "be brief"]).
  intros m [<- | []]. discriminate.
Defined.

Lemma chat_answers_last_user_message_witness :
  generate_chat_response "t" None string (fun _ c => inl ("re: " ++ c)) (fun r => inl r) "unbound"
    [ChatMessage "user" "one"; ChatMessage "user" "two"; ChatMessage "model" "three"]
  = ResponseTemplate "t" "gemini-pro" "success" "two" "generate_content" (Some "re: two") None.
Proof.
  apply (chat_answers_last_user_message "t" None string (fun _ c => inl ("re: " ++ c))
           (fun r => inl r) "unbound" [ChatMessage "user" "one"] [ChatMessage "model" "three"]
           "two" "re: two" ["one"] "one" (Some "re: one") "re: two");
    try reflexivity.
  intros m [<- | []]. discriminate.
Defined.

(** * [parse_url_to_variable] *)

Lemma string_forall_app (f : ascii -> bool) (a b : string) :
  string_forall f (a ++ b) = string_forall f a && string_forall f b.
Proof.
  induction a as [|c a IH]; simpl; [reflexivity|].
  rewrite IH. apply andb_assoc.
Qed.

Lemma string_forall_concat (f : ascii -> bool) (sep : string) (l : list string) :
  string_forall f sep = true ->
  (forall s, In s l -> string_forall f s = true) ->
  string_forall f (String.concat sep l) = true.
Proof.
  intros Hsep. induction l as [|x [|y l] IH]; intro H; [reflexivity | |].
  - apply H. left. reflexivity.
  - change (String.concat sep (x :: y :: l)) with (x ++ sep ++ String.concat sep (y :: l)).
    rewrite !string_forall_app, Hsep, (H x (or_introl eq_refl)).
    rewrite IH; [reflexivity|]. intros s Hin. apply H. right. exact Hin.
Qed.

Lemma replace_special_word (part : string) :
  string_forall word_char (replace_special part) = true.
Proof.
  induction part as [|c part IH]; simpl; [reflexivity|].
  rewrite IH, andb_true_r. unfold word_char.
  destruct (is_alnum c) eqn:E; [rewrite E|]; reflexivity.
Qed.

Lemma collapse_underscores_forall (f : ascii -> bool) (part : string) :
  string_forall f part = true -> string_forall f (collapse_underscores part) = true.
Proof.
  induction part as [|c part IH]; [reflexivity|].
  cbn [string_forall]. intro H. apply andb_prop in H. destruct H as [Hc Hp].
  specialize (IH Hp). cbn [collapse_underscores].
  destruct (Ascii.eqb c "_").
  - destruct part as [|c' part']; [simpl; rewrite Hc; reflexivity|].
    destruct (Ascii.eqb c' "_"); [exact IH|].
    cbn [string_forall]. rewrite Hc. exact IH.
  - cbn [string_forall]. rewrite Hc. exact IH.
Qed.

Lemma string_of_uint_digits (d : Decimal.uint) :
  string_forall word_char (DecimalString.NilEmpty.string_of_uint d) = true.
Proof.
  induction d; simpl; try rewrite IHd; reflexivity.
Qed.

Lemma str_of_nat_digits (n : nat) : string_forall word_char (str_of_nat n) = true.
Proof.
  unfold str_of_nat, DecimalString.NilZero.string_of_uint.
  destruct (Nat.to_uint n); try apply string_of_uint_digits. reflexivity.
Qed.

Lemma after_uuid_found (path_parts rest : list string) (part : string) :
  after_uuid path_parts = Some (part, rest) ->
  is_uuid part = true /\ In part path_parts.
Proof.
  induction path_parts as [|p l IH]; simpl; [discriminate|].
  destruct (is_uuid p) eqn:E.
  - intro H. injection H as <- <-. split; [exact E | left; reflexivity].
  - intro H. destruct (IH H) as [H1 H2]. split; [exact H1 | right; exact H2].
Qed.

(** X21. Whatever the URL and the number drawn, the variable name
    [parse_url_to_variable] returns is made of letters, digits and
    underscores only, also when [urlparse] raises; and a UUID it reports
    is a component of the fragment that has the UUID format. *)
Theorem parse_url_to_variable_result (fragment_of : string -> option string)
        (url : string) (random : nat) :
  string_forall word_char (uv_variable (parse_url_to_variable fragment_of url random)) = true /\
  (forall u, uv_uuid (parse_url_to_variable fragment_of url random) = Some u ->
     is_uuid u = true /\
     exists fragment, fragment_of url = Some fragment /\ In u (split "/" fragment)).
Proof.
  unfold parse_url_to_variable.
  destruct (fragment_of url) as [fragment|]; [|split; [reflexivity | discriminate]].
  cbv zeta.
  set (parts := filter non_empty (split "/" fragment)).
  assert (Hvar : forall l,
             string_forall word_char
               (String.concat "_"
                  (map (fun part => collapse_underscores (replace_special part))
                       (map (fun part => slice_to part 4) l))
                ++ "_" ++ str_of_nat random) = true).
  { intro l. rewrite !string_forall_app, str_of_nat_digits, andb_true_r.
    rewrite string_forall_concat; [reflexivity | reflexivity |].
    intros s Hin. apply in_map_iff in Hin. destruct Hin as (x & <- & _).
    apply collapse_underscores_forall, replace_special_word. }
  destruct (after_uuid parts) as [[part rest]|] eqn:Ea; cbn [uv_variable uv_uuid].
  - split; [apply Hvar|]. intros u Hu. injection Hu as <-.
    destruct (after_uuid_found _ _ _ Ea) as [H1 H2]. split; [exact H1|].
    exists fragment. split; [reflexivity|].
    unfold parts in H2. apply filter_In in H2. exact (proj1 H2).
  - split; [apply Hvar | discriminate].
Qed.

(** * [TraceViewer.show_trace] and [_handle_debug] *)

Section TraceViewerProperties.

Variable nt : bool.
Variable which : string -> bool.
Variable absolute : string -> string.
Variable path_exists : string -> bool.
Variable popen : list string -> bool -> bool.


(** X23. With a non-empty [log_path] and the Playwright CLI installed,
    [_handle_debug] returns the status [success] with that path, whether
    or not the trace file exists and whether or not the viewer could be
    started: the result of [show_trace] is not looked at. *)
Theorem _handle_debug_reports_success (prompt_dict : pydict (option string))
        (log_path : string) :
  dict_get prompt_dict "log_path" = Some (Some log_path) ->
  log_path <> "" ->
  which (playwright_exe nt) = true ->
  fst (_handle_debug nt which absolute path_exists popen prompt_dict)
  = Returned (DebugResult "success" "Opened trace viewer" log_path).
Proof.
  intros Hl Hne Hw. unfold _handle_debug, TraceViewer_init. rewrite Hl, Hw.
  destruct log_path as [|c p]; [contradiction|].
  destruct (show_trace nt absolute path_exists popen (String c p) (Some 9222) "default").
  reflexivity.
Qed.

End TraceViewerProperties.

Lemma parse_url_to_variable_result_witness :
  is_uuid "123e4567-e89b-12d3-a456-426614174000" = true.
Proof.
  apply (proj2 (parse_url_to_variable_result (fun u => Some u)
                  "loans/123e4567-e89b-12d3-a456-426614174000/documents" 1234)
           "123e4567-e89b-12d3-a456-426614174000" eq_refl).
Defined.


Lemma _handle_debug_reports_success_witness :
  fst (_handle_debug false (fun _ => true) (fun p => p) (fun _ => false) (fun _ _ => false)
         [("log_path", Some "missing.zip")])
  = Returned (DebugResult "success" "Opened trace viewer" "missing.zip").
Proof.
  apply (_handle_debug_reports_success false (fun _ => true) (fun p => p) (fun _ => false)
           (fun _ _ => false) [("log_path", Some "missing.zip")] "missing.zip");
    first [reflexivity | discriminate].
Defined.

(** * The requests of [main] *)

Section MainProperties.

Variable J : Type.
Variable request : nat -> answer J.

(** The bound of the loop is never what ends it. *)
Lemma retry_bound (left count : nat) (json_data : option J) :
  count + left = 4 -> count <= 3 ->
  retry J request left count json_data
  = match json_data with
    | Some j => (Engine j, S count)
    | None =>
        if Nat.ltb 3 (S count) then (NoJson, S (S count))
        else retry J request (left - 1) (S count) (extracted J (request (S count)))
    end.
Proof.
  intros H Hc. destruct left as [|left']; [lia|]. simpl.
  destruct json_data; [reflexivity|]. rewrite Nat.sub_0_r. reflexivity.
Qed.

(** X24. When the first answer has content but neither it nor the next
    three hold JSON, [main] makes a fifth request and then gives up
    whatever that request brings: four retries are made, not three, and
    the answer to the last one is never used. *)
Theorem main_gives_up_after_fifth_request (first : option J) :
  request 0 = AnswerContent first ->
  (forall i, i <= 3 -> extracted J (request i) = None) ->
  main_requests J request = (NoJson, 5).
Proof.
  intros H0 Hnone. unfold main_requests. rewrite H0.
  assert (E0 := Hnone 0 ltac:(lia)). rewrite H0 in E0. simpl in E0. subst first.
  rewrite retry_bound by (simpl; lia). cbn [Nat.ltb Nat.leb Nat.sub].
  rewrite (Hnone 1) by lia.
  rewrite retry_bound by (simpl; lia). cbn [Nat.ltb Nat.leb Nat.sub].
  rewrite (Hnone 2) by lia.
  rewrite retry_bound by (simpl; lia). cbn [Nat.ltb Nat.leb Nat.sub].
  rewrite (Hnone 3) by lia.
  rewrite retry_bound by (simpl; lia). reflexivity.
Qed.

(** X25. When the first answer has content and the first JSON comes with
    the request number [i], for [i] up to 3, [main] hands exactly that
    JSON to the engine after [i + 1] requests; an answer with the status
    [error] among the retries counts as one without JSON. *)
Theorem main_runs_first_json (first : option J) (i : nat) (j : J) :
  request 0 = AnswerContent first ->
  i <= 3 ->
  (forall k, k < i -> extracted J (request k) = None) ->
  extracted J (request i) = Some j ->
  main_requests J request = (Engine j, S i).
Proof.
  intros H0 Hi Hnone Hj. unfold main_requests. rewrite H0.
  assert (Ef : first = extracted J (request 0)) by (rewrite H0; reflexivity).
  rewrite Ef. clear Ef H0 first.
  assert (Step : forall count left,
             count + left = 4 -> count <= 3 -> count < i ->
             retry J request left count (extracted J (request count))
             = retry J request (left - 1) (S count) (extracted J (request (S count)))).
  { intros count left Hc Hle Hlt. rewrite retry_bound by assumption.
    rewrite (Hnone count Hlt).
    destruct (Nat.ltb_spec 3 (S count)) as [Hgt|_]; [lia | reflexivity]. }
  assert (Last : forall left, i + left = 4 ->
             retry J request left i (extracted J (request i)) = (Engine j, S i)).
  { intros left Hc. rewrite retry_bound by assumption. rewrite Hj. reflexivity. }
  destruct i as [|[|[|[|i]]]]; try lia.
  - apply Last. reflexivity.
  - rewrite Step by lia. apply Last. reflexivity.
  - rewrite Step by lia. rewrite Step by lia. apply Last. reflexivity.
  - rewrite Step by lia. rewrite Step by lia. rewrite Step by lia. apply Last. reflexivity.
Qed.

End MainProperties.

Lemma main_gives_up_after_fifth_request_witness :
  main_requests nat (fun i => AnswerContent (if Nat.eqb i 4 then Some 7 else None)) = (NoJson, 5).
Proof.
  apply (main_gives_up_after_fifth_request nat
           (fun i => AnswerContent (if Nat.eqb i 4 then Some 7 else None)) None).
  - reflexivity.
  - intros i Hi. destruct i as [|[|[|[|i]]]]; try reflexivity. lia.
Defined.

Lemma main_runs_first_json_witness :
  main_requests nat (fun i => match i with
                              | 0 => AnswerContent None
                              | 1 => AnswerError "quota"
                              | _ => AnswerContent (Some 7)
                              end)
  = (Engine 7, 3).
Proof.
  apply (main_runs_first_json nat _ None 2 7); try reflexivity; [lia|].
  intros k Hk. destruct k as [|[|k]]; try reflexivity. lia.
Defined.

(** * The trace on the failure path *)

Section StopsAtFailure.

Variable fails : oracle.

Lemma stops_ret {A} (a : A) : stops_at_failure fails (ret a).
Proof.
  intro h. exists []. split; [simpl; rewrite app_nil_r; reflexivity|].
  intros pre c post E. destruct pre; discriminate E.
Qed.

Lemma stops_index (l : list string) (i : nat) : stops_at_failure fails (index l i).
Proof.
  unfold index. destruct (nth_error l i); [apply stops_ret|].
  intro h. exists []. split; [simpl; rewrite app_nil_r; reflexivity|].
  intros pre c post E. destruct pre; discriminate E.
Qed.

Lemma stops_sleep (n : nat) : stops_at_failure fails (sleep n).
Proof.
  intro h. exists [Sleep n]. split; [reflexivity|].
  intros pre c post E Hc. exfalso.
  destruct pre as [|x pre]; [|destruct pre; discriminate E].
  injection E as <- _. discriminate Hc.
Qed.

Lemma stops_playwright (c0 : call) : stops_at_failure fails (playwright fails c0).
Proof.
  intro h. exists [c0]. split; [reflexivity|].
  intros pre c post E _ Hf.
  destruct pre as [|x pre]; [|destruct pre; discriminate E].
  injection E as <- <-. rewrite app_nil_r in Hf.
  unfold playwright. simpl. rewrite Hf. split; reflexivity.
Qed.

Lemma stops_when (b : bool) (body : M unit) :
  stops_at_failure fails body -> stops_at_failure fails (when b body).
Proof.
  destruct b; simpl; [trivial | intros _; apply stops_ret].
Qed.

Lemma stops_bind {A B} (m : M A) (k : A -> M B) :
  stops_at_failure fails m -> (forall a, stops_at_failure fails (k a)) ->
  stops_at_failure fails (bind m k).
Proof.
  intros Hm Hk h. unfold bind.
  destruct (Hm h) as (n1 & E1 & P1).
  destruct (m h) as [h1 [a|e]]; simpl in E1, P1; subst h1.
  - destruct (Hk a (h ++ n1)%list) as (n2 & E2 & P2).
    exists (n1 ++ n2)%list. split; [rewrite E2, app_assoc; reflexivity|].
    intros pre c post E Hc Hf.
    apply app_eq_app in E. destruct E as (l & [[E3 E4] | [E3 E4]]).
    + destruct l as [|x l].
      * rewrite app_nil_r in E3. subst n1. simpl in E4.
        apply (P2 [] c post); [symmetry; exact E4 | exact Hc|].
        rewrite app_nil_r. exact Hf.
      * simpl in E4. injection E4 as <- E4.
        destruct (P1 pre c l E3 Hc Hf) as [_ Habs]. discriminate Habs.
    + subst pre. apply (P2 l c post E4 Hc). rewrite <- app_assoc. exact Hf.
  - exists n1. split; [reflexivity|].
    intros pre c post E Hc Hf. destruct (P1 pre c post E Hc Hf) as [Hp Hr].
    split; [exact Hp|]. simpl. injection Hr as ->. reflexivity.
Qed.

Lemma stops_dispatch (key value : string) :
  stops_at_failure fails (dispatch_instruction fails key value).
Proof.
  unfold dispatch_instruction. cbv zeta.
  repeat first
    [ apply stops_bind; [|intro]
    | apply stops_when
    | apply stops_playwright
    | apply stops_sleep
    | apply stops_index ].
Qed.

Lemma stops_run_instructions (testItem : dict) :
  stops_at_failure fails (run_instructions fails testItem).
Proof.
  induction testItem as [|[k v] rest IH]; simpl.
  - apply stops_ret.
  - apply stops_bind; [apply stops_dispatch | intros _; exact IH].
Qed.

(** The loop ends with the instruction that raises. *)
Lemma run_instructions_raises (done rest : dict) (k v : string)
      (h h1 h2 : history) (e : exn) :
  run_instructions fails done h = (h1, Ok tt) ->
  dispatch_instruction fails k v h1 = (h2, Raise e) ->
  run_instructions fails (done ++ (k, v) :: rest)%list h = (h2, Raise e).
Proof.
  revert h. induction done as [|[k0 v0] done IH]; intros h Hd Hk; simpl in *.
  - injection Hd as <-. unfold bind. rewrite Hk. reflexivity.
  - unfold bind in *. destruct (dispatch_instruction fails k0 v0 h) as [h0 [[]|e0]];
      [|discriminate Hd].
    apply IH; assumption.
Qed.

End StopsAtFailure.

Lemma split_around (l1 new l3 pre post : list call) (c : call) :
  (l1 ++ new ++ l3 = pre ++ c :: post)%list ->
  ~ In c l1 -> ~ In c l3 ->
  exists pre' post',
    pre = (l1 ++ pre')%list /\ new = (pre' ++ c :: post')%list /\ post = (post' ++ l3)%list.
Proof.
  intros E H1 H3.
  assert (G : exists l, pre = (l1 ++ l)%list /\ (new ++ l3 = l ++ c :: post)%list).
  { apply app_eq_app in E. destruct E as (l & [[E1 E2] | [E1 E2]]).
    - destruct l as [|x l].
      + exists []. rewrite app_nil_r in E1. subst l1. rewrite app_nil_r.
        split; [reflexivity | symmetry; exact E2].
      + exfalso. simpl in E2. injection E2 as <- _. apply H1. subst l1.
        apply in_or_app. right. left. reflexivity.
    - exists l. split; assumption. }
  destruct G as (l & -> & E2).
  apply app_eq_app in E2. destruct E2 as (l0 & [[E3 E4] | [E3 E4]]).
  - destruct l0 as [|x l0].
    + exfalso. apply H3. simpl in E4. rewrite <- E4. left. reflexivity.
    + simpl in E4. injection E4 as <- E4. exists l, l0. repeat split; assumption.
  - exfalso. apply H3. rewrite E4. apply in_or_app. right. left. reflexivity.
Qed.

Lemma page_action_not_in (c : call) (l : list call) :
  is_page_action c = true ->
  (forall x, In x l -> is_page_action x = false) -> ~ In c l.
Proof.
  intros Hc Hl Hin. rewrite (Hl c Hin) in Hc. discriminate Hc.
Qed.

Lemma testExecution_ready (fails : oracle) (OUTPUT_DIR : string) (jsonInstruction : dict) :
  session_ready fails (find_common_prefix (keys jsonInstruction)) = true ->
  run (testExecution fails OUTPUT_DIR jsonInstruction)
  = match run_instructions fails
            (remove_common_prefix jsonInstruction (find_common_prefix (keys jsonInstruction)))
            session_setup with
    | (hl, Raise e) => ((hl ++ [PlaywrightExit])%list, Raise e)
    | (hl, Ok _) =>
        let stop := TracingStop (path_join OUTPUT_DIR "trace.zip") in
        if fails hl stop
        then ((hl ++ [stop; PlaywrightExit])%list, Raise (PlaywrightError stop))
        else if fails (hl ++ [stop])%list BrowserClose
             then ((hl ++ [stop; BrowserClose; PlaywrightExit])%list,
                   Raise (PlaywrightError BrowserClose))
             else ((hl ++ [stop; BrowserClose; PlaywrightExit])%list, Ok true)
    end.
Proof.
  unfold session_ready. intro H.
  repeat (apply andb_prop in H; let H' := fresh "H" in destruct H as [H H']).
  rewrite negb_true_iff in *.
  unfold run, testExecution. cbv zeta.
  destruct (proj2 (index_from_end_split (find_common_prefix (keys jsonInstruction)) []) H)
    as [seg E].
  unfold with_playwright, bind, playwright, ret. rewrite E. simpl app.
  rewrite H0, H1, H2, H3. fold session_setup.
  destruct (run_instructions fails _ session_setup) as [hl [[]|e]]; cbv beta iota zeta.
  - destruct (fails hl _); [simpl; rewrite <- app_assoc; reflexivity|].
    destruct (fails (hl ++ [_])%list BrowserClose); simpl; rewrite <- !app_assoc; reflexivity.
  - reflexivity.
Qed.

Section TraceOnFailure.

Variable fails : oracle.
Variable OUTPUT_DIR : string.
Variable jsonInstruction : dict.

Let common_prefix := find_common_prefix (keys jsonInstruction).
Let testItem := remove_common_prefix jsonInstruction common_prefix.
Let stop := TracingStop (path_join OUTPUT_DIR "trace.zip").
Let loop := run_instructions fails testItem session_setup.
Let session := run (testExecution fails OUTPUT_DIR jsonInstruction).

(** C3. A run in which a navigate, fill or click fails, or in which an
    instruction reads a key segment out of range, ends there: the failing
    call is the last one before the exit of the Playwright manager, the
    instructions behind it are not dispatched, the exception is the
    result of the run, and tracing is never stopped.  The trace is
    stopped, to [OUTPUT_DIR/trace.zip], only after the loop has dispatched
    every instruction without an exception, and it is stopped on every
    run that returns. *)
Theorem trace_stopped_on_success_only :
  (forall pre c post,
     fst session = (pre ++ c :: post)%list ->
     is_page_action c = true ->
     fails pre c = true ->
     post = [PlaywrightExit] /\
     snd session = Raise (PlaywrightError c) /\
     forall p, ~ In (TracingStop p) (fst session)) /\
  (forall done k v rest h1 h2 e,
     session_ready fails common_prefix = true ->
     testItem = (done ++ (k, v) :: rest)%list ->
     run_instructions fails done session_setup = (h1, Ok tt) ->
     dispatch_instruction fails k v h1 = (h2, Raise e) ->
     session = ((h2 ++ [PlaywrightExit])%list, Raise e) /\
     forall p, ~ In (TracingStop p) (h2 ++ [PlaywrightExit])%list) /\
  (forall e,
     snd session = Raise e -> loop_exn e ->
     forall p, ~ In (TracingStop p) (fst session)) /\
  (forall p,
     In (TracingStop p) (fst session) ->
     p = path_join OUTPUT_DIR "trace.zip" /\ snd loop = Ok tt) /\
  (snd session = Ok true ->
   snd loop = Ok tt /\
   fst session = (fst loop ++ [stop; BrowserClose; PlaywrightExit])%list).
Proof.
  destruct (tame_run_instructions fails testItem session_setup) as (new & En & Fn & Rn).
  destruct (stops_run_instructions fails testItem session_setup) as (new' & En' & Pn).
  fold loop in En, Rn, En', Pn.
  assert (new' = new) by (rewrite En in En'; exact (eq_sym (app_inv_head _ _ _ En'))).
  subst new'. clear En'.
  assert (Hsetup : forall p, ~ In (TracingStop p) session_setup).
  { intros p [E | [E | [E | [E | []]]]]; discriminate E. }
  assert (Hloop : forall p, ~ In (TracingStop p) (fst loop)).
  { intros p Hin. rewrite En in Hin. apply in_app_or in Hin. destruct Hin as [Hin | Hin].
    - exact (Hsetup p Hin).
    - exact (loop_call_not_stop new p Fn Hin). }
  assert (Hexit : forall p l, ~ In (TracingStop p) l -> ~ In (TracingStop p) (l ++ [PlaywrightExit])%list).
  { intros p l Hl Hin. apply in_app_or in Hin. destruct Hin as [Hin | [E | []]].
    - exact (Hl Hin).
    - discriminate E. }
  assert (Hprefix : forall k p, ~ In (TracingStop p) (firstn k session_setup)).
  { intros k p Hin. exact (Hsetup p (in_firstn _ _ _ Hin)). }
  pose proof (testExecution_cases fails OUTPUT_DIR jsonInstruction) as C.
  fold common_prefix testItem stop loop session in C.
  assert (Href : forall pre c post (tail : list call),
             (fst loop ++ tail = pre ++ c :: post)%list ->
             is_page_action c = true -> fails pre c = true ->
             (forall x, In x tail -> is_page_action x = false) ->
             post = tail /\ snd loop = Raise (PlaywrightError c)).
  { intros pre c post tail E Hc Hf Htail.
    rewrite En, <- app_assoc in E.
    apply split_around in E.
    - destruct E as (pre' & post' & -> & E2 & ->).
      destruct (Pn pre' c post' E2 Hc Hf) as [-> Hr]. split; [reflexivity | exact Hr].
    - apply page_action_not_in; [exact Hc | apply not_page_action_setup].
    - apply page_action_not_in; assumption. }
  assert (Hok : forall pre c post (tail : list call),
             (fst loop ++ tail = pre ++ c :: post)%list ->
             is_page_action c = true -> fails pre c = true ->
             (forall x, In x tail -> is_page_action x = false) ->
             snd loop = Ok tt -> False).
  { intros pre c post tail E Hc Hf Htail Hl.
    destruct (Href pre c post tail E Hc Hf Htail) as [_ Hr].
    rewrite Hl in Hr. discriminate Hr. }
  split; [|split; [|split; [|split]]].
  - (* a page action that fails *)
    intros pre c post H Hc Hf.
    destruct C as [[_ E] | [_ [(k & c0 & Hk & E) | [(e & He & E) | [(Hl & E) | [(Hl & E) | (Hl & E)]]]]]];
      rewrite E in H |- *; cbn [fst snd] in *.
    + destruct pre; discriminate H.
    + exfalso.
      assert (Hin : In c (firstn (S k) session_setup ++ [PlaywrightExit])%list)
        by (rewrite H; apply in_elt).
      apply in_app_or in Hin. destruct Hin as [Hin | [<- | []]]; [|discriminate Hc].
      rewrite (not_page_action_setup c (in_firstn _ _ _ Hin)) in Hc. discriminate Hc.
    + destruct (Href pre c post [PlaywrightExit] H Hc Hf) as [Hp Hr].
      * intros x [<- | []]. reflexivity.
      * rewrite He in Hr. injection Hr as ->.
        split; [exact Hp|]. split; [reflexivity|].
        intro p. apply Hexit, Hloop.
    + exfalso. apply (Hok pre c post [stop; PlaywrightExit] H Hc Hf); [|exact Hl].
      intros x [<- | [<- | []]]; reflexivity.
    + exfalso. apply (Hok pre c post [stop; BrowserClose; PlaywrightExit] H Hc Hf); [|exact Hl].
      intros x [<- | [<- | [<- | []]]]; reflexivity.
    + exfalso. apply (Hok pre c post [stop; BrowserClose; PlaywrightExit] H Hc Hf); [|exact Hl].
      intros x [<- | [<- | [<- | []]]]; reflexivity.
  - (* an instruction that raises ends the run *)
    intros done k v rest h1 h2 e Hready Hitem Hdone Hraise.
    assert (El : loop = (h2, Raise e)).
    { unfold loop. rewrite Hitem.
      exact (run_instructions_raises fails done rest k v _ h1 h2 e Hdone Hraise). }
    split.
    + unfold session. rewrite (testExecution_ready fails OUTPUT_DIR jsonInstruction Hready).
      fold common_prefix testItem loop. rewrite El. reflexivity.
    + intro p. apply Hexit. specialize (Hloop p). rewrite El in Hloop. exact Hloop.
  - (* a run that ends in an exception of the loop *)
    intros e H Hexn p.
    destruct C as [[_ E] | [_ [(k & c0 & Hk & E) | [(e0 & He & E) | [(Hl & E) | [(Hl & E) | (Hl & E)]]]]]];
      rewrite E in H |- *; cbn [fst snd] in *.
    + intros [].
    + apply Hexit, Hprefix.
    + apply Hexit, Hloop.
    + exfalso. injection H as <-. destruct Hexn as [Hx | (c & Hc & Hp)];
        [discriminate Hx | injection Hc as <-; discriminate Hp].
    + exfalso. injection H as <-. destruct Hexn as [Hx | (c & Hc & Hp)];
        [discriminate Hx | injection Hc as <-; discriminate Hp].
    + discriminate H.
  - (* where the trace is stopped *)
    intros p H.
    destruct C as [[_ E] | [_ [(k & c0 & Hk & E) | [(e0 & He & E) | [(Hl & E) | [(Hl & E) | (Hl & E)]]]]]];
      rewrite E in H; cbn [fst] in H.
    + destruct H.
    + exfalso. exact (Hexit p _ (Hprefix (S k) p) H).
    + exfalso. exact (Hexit p _ (Hloop p) H).
    + split; [|exact Hl].
      apply in_app_or in H. destruct H as [H | [H | [H | []]]];
        [exfalso; exact (Hloop p H) | injection H as <-; reflexivity | discriminate H].
    + split; [|exact Hl].
      apply in_app_or in H. destruct H as [H | [H | [H | [H | []]]]];
        [exfalso; exact (Hloop p H) | injection H as <-; reflexivity
        | discriminate H | discriminate H].
    + split; [|exact Hl].
      apply in_app_or in H. destruct H as [H | [H | [H | [H | []]]]];
        [exfalso; exact (Hloop p H) | injection H as <-; reflexivity
        | discriminate H | discriminate H].
  - (* a run that returns *)
    intro H.
    destruct C as [[_ E] | [_ [(k & c0 & Hk & E) | [(e0 & He & E) | [(Hl & E) | [(Hl & E) | (Hl & E)]]]]]];
      rewrite E in H |- *; cbn [fst snd] in *; try discriminate H.
    split; [exact Hl | reflexivity].
Qed.

End TraceOnFailure.

(** Instance of C3.  When the click of the second instruction fails, it
    is the last call before the exit of the manager, its error is the
    result of the run, and the trace is not stopped; when no call fails,
    the run returns and its last calls are the stop of the trace, the
    close of the browser and the exit of the manager. *)
Lemma trace_stopped_on_success_only_witness :
  (snd (run (testExecution (fun _ c => match c with Click _ => true | _ => false end) "out"
               [("run.url", "http://x"); ("run.button.go", "go")]))
   = Raise (PlaywrightError (Click "button[name='go']")) /\
   forall p,
     ~ In (TracingStop p)
          (fst (run (testExecution (fun _ c => match c with Click _ => true | _ => false end) "out"
                       [("run.url", "http://x"); ("run.button.go", "go")])))) /\
  run (testExecution (fun _ c => match c with Click _ => true | _ => false end) "out"
         [("run.url", "http://x"); ("run.button.go", "go")])
  = ([Launch; NewContext; NewPage; TracingStart; Goto "http://x";
      Click "button[name='go']"; PlaywrightExit],
     Raise (PlaywrightError (Click "button[name='go']"))) /\
  fst (run (testExecution (fun _ _ => false) "out"
              [("run.url", "http://x"); ("run.button.go", "go")]))
  = [Launch; NewContext; NewPage; TracingStart; Goto "http://x";
     Click "button[name='go']"; Sleep 3; TracingStop "out/trace.zip";
     BrowserClose; PlaywrightExit].
Proof.
  split; [|split].
  - exact (proj2 (proj1 (trace_stopped_on_success_only
                    (fun _ c => match c with Click _ => true | _ => false end) "out"
                    [("run.url", "http://x"); ("run.button.go", "go")])
             [Launch; NewContext; NewPage; TracingStart; Goto "http://x"]
             (Click "button[name='go']") [PlaywrightExit] eq_refl eq_refl eq_refl)).
  - exact (proj1 (proj1 (proj2 (trace_stopped_on_success_only
                    (fun _ c => match c with Click _ => true | _ => false end) "out"
                    [("run.url", "http://x"); ("run.button.go", "go")]))
             [("url", "http://x")] "button.go" "go" []
             [Launch; NewContext; NewPage; TracingStart; Goto "http://x"]
             [Launch; NewContext; NewPage; TracingStart; Goto "http://x";
              Click "button[name='go']"]
             (PlaywrightError (Click "button[name='go']"))
             eq_refl eq_refl eq_refl eq_refl)).
  - exact (proj2 (proj2 (proj2 (proj2 (proj2 (trace_stopped_on_success_only
                    (fun _ _ => false) "out"
                    [("run.url", "http://x"); ("run.button.go", "go")])))) eq_refl)).
Defined.
